(** * Foodiefy restaurant recommender: a shallow embedding of
    [streamlit_restaurant_app/app/restaurant_recommender.py].

    The script is embedded as it runs: top to bottom, in a monad that
    carries the module's variables and the sequence of calls made to
    Streamlit and to the two loaded model artefacts, and that stops at the
    first uncaught Python exception.

    Conventions of the embedding.
    - Text is ASCII: a Python [str] is a [string], one [ascii] per
      character.
    - A table cell is a [str] or pandas' missing value [NaN].  The two
      numeric columns are carried as the text the script interpolates into
      its HTML.
    - The TF-IDF vectorizer and the nearest-neighbour index are unpickled
      artefacts: they are parameters of the development, as is the type of
      the vectors they exchange. *)

From Stdlib Require Import String Ascii List NArith Bool Lia Sorted.
From Stdlib Require OrderedTypeEx.
From stdpp Require Import base list strings.

(** ** Exceptions and results *)

Inductive exn : Type :=
| KeyError (key : string)
| IndexError
| TypeError
| ValueError
| FileNotFoundError (what : string)
| ParserError
| re_outside_fragment (pat : string).
(** [re_outside_fragment] is not a Python exception: it marks a pattern
    that uses regular-expression syntax beyond the fragment embedded in
    [Re.compile] below, where the embedding says nothing. *)

Inductive result (A : Type) : Type :=
| Ok (a : A)
| Raise (e : exn).
Arguments Ok {A} a.
Arguments Raise {A} e.

Definition result_bind {A B} (r : result A) (k : A → result B) : result B :=
  match r with
  | Ok a => k a
  | Raise e => Raise e
  end.

(** ** Strings *)

Module Str.

(** [str.lower] on ASCII. *)
Definition lower_char (c : ascii) : ascii :=
  let n := N_of_ascii c in
  if (65 <=? n)%N && (n <=? 90)%N then ascii_of_N (n + 32) else c.

Fixpoint lower (s : string) : string :=
  match s with
  | EmptyString => EmptyString
  | String c s' => String (lower_char c) (lower s')
  end.

Fixpoint mem_char (c : ascii) (s : string) : bool :=
  match s with
  | EmptyString => false
  | String d s' => Ascii.eqb c d || mem_char c s'
  end.

(** [sep.join(parts)] *)
Fixpoint join (sep : string) (parts : list string) : string :=
  match parts with
  | [] => EmptyString
  | [p] => p
  | p :: ps => p +:+ sep +:+ join sep ps
  end.

(** [s.split(", ")], the only separator the script splits on; [cur] is
    the piece read so far, last character first. *)
Fixpoint split_aux (s cur : string) : list string :=
  match s with
  | EmptyString => [String.rev cur]
  | String c s' =>
      match s' with
      | String d s'' =>
          if Ascii.eqb c "," && Ascii.eqb d " "
          then String.rev cur :: split_aux s'' EmptyString
          else split_aux s' (String c cur)
      | EmptyString => split_aux s' (String c cur)
      end
  end.

Definition split_comma_space (s : string) : list string :=
  split_aux s EmptyString.

(** [sorted(set(xs))]: insertion into a strictly increasing list. *)
Fixpoint insert_sorted (x : string) (l : list string) : list string :=
  match l with
  | [] => [x]
  | y :: l' =>
      match String.compare x y with
      | Lt => x :: l
      | Eq => l
      | Gt => y :: insert_sorted x l'
      end
  end.

Definition sorted_set (xs : list string) : list string :=
  foldr insert_sorted [] xs.

End Str.

(** ** The fragment of Python's [re] the cuisine filter is embedded on

    [Series.str.contains(pat, case=False, na=False)] leaves [regex] at its
    default [True]: [pat] is compiled as a regular expression and every
    cell is tested with [re.search] under [re.IGNORECASE].  The embedding
    covers patterns made of ordinary characters and of ["."]; any other
    special character of [re] puts the pattern outside the fragment. *)

Module Re.

Inductive atom : Type :=
| Lit (c : ascii)      (* an ordinary character, matching itself *)
| AnyChar.             (* [.]: any character except a newline *)

(** The special characters of [re]. *)
Definition special : string := ".^$*+?{}[]\|()".

Definition is_special (c : ascii) : bool := Str.mem_char c special.

Fixpoint has_special (pat : string) : bool :=
  match pat with
  | EmptyString => false
  | String c pat' => is_special c || has_special pat'
  end.

Fixpoint compile_atoms (pat : string) : option (list atom) :=
  match pat with
  | EmptyString => Some []
  | String c pat' =>
      if Ascii.eqb c "." then cons AnyChar <$> compile_atoms pat'
      else if is_special c then None
      else cons (Lit c) <$> compile_atoms pat'
  end.

Definition compile (pat : string) : result (list atom) :=
  match compile_atoms pat with
  | Some re => Ok re
  | None => Raise (re_outside_fragment pat)
  end.

Definition newline : ascii := ascii_of_N 10.

(** One atom against one character, under [re.IGNORECASE]. *)
Definition atom_matches (a : atom) (c : ascii) : bool :=
  match a with
  | Lit p => Ascii.eqb (Str.lower_char p) (Str.lower_char c)
  | AnyChar => negb (Ascii.eqb c newline)
  end.

(** [re.match]: the pattern matches a prefix of [s]. *)
Fixpoint match_here (re : list atom) (s : string) : bool :=
  match re, s with
  | [], _ => true
  | _ :: _, EmptyString => false
  | a :: re', String c s' => atom_matches a c && match_here re' s'
  end.

(** [re.search]: the pattern matches at some position of [s]. *)
Fixpoint search (re : list atom) (s : string) : bool :=
  match_here re s ||
  match s with
  | EmptyString => false
  | String _ s' => search re s'
  end.

End Re.

(** ** The part of pandas the script uses

    A [DataFrame] is its column labels and its rows, each row carrying its
    index label and one cell per column.  Boolean indexing keeps the index
    labels of the rows it keeps; [iloc] is positional. *)

Module Pandas.

Inductive cell : Type :=
| NaN
| Text (s : string).

Record row : Type := Row { label : nat; cells : list cell }.

Record DataFrame : Type := Frame { columns : list string; rows : list row }.

(** A column, or the result of an elementwise operation on columns: the
    index labels with one value each. *)
Definition Series (A : Type) : Type := list (nat * A).

(** [pd.DataFrame()] *)
Definition empty_frame : DataFrame := Frame [] [].

(** [pd.read_csv]: the header and the records of the file, under a fresh
    [RangeIndex].  A record shorter than the header is completed with
    missing values; a longer one is a tokenizing error. *)
Definition pad (width : nat) (record : list cell) : list cell :=
  record ++ replicate (width - length record) NaN.

Definition read_csv (header : list string) (records : list (list cell)) : result DataFrame :=
  if forallb (λ r, length r <=? length header) records
  then Ok (Frame header (imap (λ i r, Row i (pad (length header) r)) records))
  else Raise ParserError.

Fixpoint get_loc (c : string) (cols : list string) : option nat :=
  match cols with
  | [] => None
  | c' :: cols' => if String.eqb c c' then Some 0 else S <$> get_loc c cols'
  end.

(** The cell of a row at a column position. *)
Definition cell_at (j : nat) (r : row) : cell := nth j (cells r) NaN.

(** [df[c]] *)
Definition getitem (d : DataFrame) (c : string) : result (Series cell) :=
  match get_loc c (columns d) with
  | Some j => Ok (map (λ r, (label r, cell_at j r)) (rows d))
  | None => Raise (KeyError c)
  end.

(** [+] on [object] cells: a missing operand gives a missing result. *)
Definition cell_add (a b : cell) : cell :=
  match a, b with
  | Text x, Text y => Text (x +:+ y)
  | _, _ => NaN
  end.

(** [series + " "] *)
Definition add_str (s : Series cell) (t : string) : Series cell :=
  map (λ p, (p.1, cell_add p.2 (Text t))) s.

(** [series + series], for two columns of one frame (same index). *)
Definition add (s t : Series cell) : Series cell :=
  zip_with (λ p q, (p.1, cell_add p.2 q.2)) s t.

(** [df[c] = series], for a series over the frame's own index: the column
    is replaced when the frame has it and appended otherwise. *)
Definition set_cell (j : nat) (v : cell) (r : row) : row :=
  Row (label r) (<[j := v]> (cells r)).

Definition append_cell (v : cell) (r : row) : row :=
  Row (label r) (cells r ++ [v]).

Definition setitem (d : DataFrame) (c : string) (s : Series cell) : DataFrame :=
  match get_loc c (columns d) with
  | Some j => Frame (columns d) (zip_with (λ r p, set_cell j p.2 r) (rows d) s)
  | None => Frame (columns d ++ [c]) (zip_with (λ r p, append_cell p.2 r) (rows d) s)
  end.

(** [df.copy()] *)
Definition copy (d : DataFrame) : DataFrame := d.

(** [series == value] *)
Definition eq_str (s : Series cell) (v : string) : Series bool :=
  map (λ p, (p.1, match p.2 with Text x => String.eqb x v | NaN => false end)) s.

(** [series.str.contains(pat, case=False, na=False)] *)
Definition contains_cell (re : list Re.atom) (c : cell) : bool :=
  match c with
  | Text x => Re.search re x
  | NaN => false
  end.

Definition str_contains (s : Series cell) (pat : string) : result (Series bool) :=
  result_bind (Re.compile pat) (λ re, Ok (map (λ p, (p.1, contains_cell re p.2)) s)).

(** [df[mask]], for a mask over the frame's own index. *)
Fixpoint select_rows (rs : list row) (mask : Series bool) : list row :=
  match rs, mask with
  | r :: rs', (_, b) :: mask' =>
      if b then r :: select_rows rs' mask' else select_rows rs' mask'
  | _, _ => []
  end.

Definition boolean_index (d : DataFrame) (mask : Series bool) : DataFrame :=
  Frame (columns d) (select_rows (rows d) mask).

(** [df.empty]: some axis has length 0. *)
Definition empty (d : DataFrame) : bool :=
  match columns d, rows d with
  | _ :: _, _ :: _ => false
  | _, _ => true
  end.

(** [len(df)] *)
Definition len (d : DataFrame) : nat := length (rows d).

(** [df.iloc[i]]: the row at position [i], as a mapping from column
    labels to cells. *)
Record record : Type := Record_ { name_ : nat; fields : list (string * cell) }.

Definition iloc (d : DataFrame) (i : nat) : result record :=
  match rows d !! i with
  | Some r => Ok (Record_ (label r) (zip (columns d) (cells r)))
  | None => Raise IndexError
  end.

Fixpoint assoc (c : string) (fs : list (string * cell)) : option cell :=
  match fs with
  | [] => None
  | (c', v) :: fs' => if String.eqb c c' then Some v else assoc c fs'
  end.

(** [r[c]] on a row *)
Definition field (r : record) (c : string) : result cell :=
  match assoc c (fields r) with
  | Some v => Ok v
  | None => Raise (KeyError c)
  end.

(** [series.dropna().unique()] and [series.dropna()], as lists of values. *)
Definition dropna (s : Series cell) : list string :=
  omap (λ p, match p.2 with Text x => Some x | NaN => None end) s.

End Pandas.

(** ** [urllib.parse.quote_plus] *)

Module Urllib.

Definition always_safe (c : ascii) : bool :=
  let n := N_of_ascii c in
  ((65 <=? n) && (n <=? 90) || (97 <=? n) && (n <=? 122) || (48 <=? n) && (n <=? 57))%N
  || Str.mem_char c "_.-~".

Definition hex_digit (n : N) : ascii :=
  if (n <? 10)%N then ascii_of_N (48 + n) else ascii_of_N (55 + n).

Definition percent (c : ascii) : string :=
  let n := N_of_ascii c in
  String "%" (String (hex_digit (n / 16)) (String (hex_digit (n mod 16)) EmptyString)).

Fixpoint quote_plus_str (s : string) : string :=
  match s with
  | EmptyString => EmptyString
  | String c s' =>
      if always_safe c then String c (quote_plus_str s')
      else if Ascii.eqb c " " then String "+" (quote_plus_str s')
      else percent c +:+ quote_plus_str s'
  end.

(** [quote_plus] of a cell: a missing value is a [float], which
    [quote_from_bytes] refuses. *)
Definition quote_plus (c : Pandas.cell) : result string :=
  match c with
  | Pandas.Text s => Ok (quote_plus_str s)
  | Pandas.NaN => Raise TypeError
  end.

End Urllib.

(** ** The script *)

Import Pandas.

(** What the script finds on disk: the dataset (its header and records,
    when the file exists) and whether each pickled artefact exists. *)
Record disk : Type := Disk {
  data_file : option (list string * list (list cell));
  vectorizer_file : bool;
  knn_model_file : bool
}.

(** What the user does in the sidebar: the position chosen in each select
    box and whether the button was pressed. *)
Record sidebar_input : Type := Sidebar {
  locality_choice : nat;
  cuisine_choice : nat;
  button : bool
}.

(** One result card, by the values interpolated into its HTML. *)
Record card : Type := Card {
  card_name : string;
  card_address : string;
  card_cuisines : string;
  card_rating : string;
  card_votes : string;
  card_maps_url : string
}.

(** The texts of the messages, without their emoji. *)
Definition data_file_not_found : string := "Data file not found".
Definition no_match_warning : string := "No restaurants found matching your criteria.".
Definition recommendations_heading : string := "Similar Recommendations:".
Definition sidebar_hint : string := "Select options from the sidebar".

Section Script.

(** The vectors of the model, [vectorizer.transform] on one document, and
    [knn_model.kneighbors(q, n_neighbors)[1][0]].  A fitted vectorizer
    transforms a batch document by document, so its batch transform is the
    map of [transform]; the index answers with positions in the matrix it
    was fitted on, or raises. *)
Context {V : Type}.
Variable transform : string → V.
Variable kneighbors : V → nat → result (list nat).

(** The calls the script makes to Streamlit and to the two artefacts.  The
    page decoration (style, title, typewriter banner, rules, footer) and
    the pauses read and write no variable and are left out. *)
Inductive event : Type :=
| st_error (msg : string)
| st_warning (msg : string)
| st_success (found : nat)
| st_info (msg : string)
| st_markdown (text : string)
| st_markdown_card (c : card)
| call_transform (docs : list string)
| call_kneighbors (q : V) (n_neighbors : nat).

(** The module's variables that hold data, and the calls made so far. *)
Record state : Type := State {
  df : DataFrame;
  tfidf_matrix : list V;
  filtered_df : DataFrame;
  out : list event
}.

Definition initial : state := State empty_frame [] empty_frame [].

Definition M (A : Type) : Type := state → result A * state.

Definition ret {A} (a : A) : M A := λ s, (Ok a, s).

Definition bind {A B} (m : M A) (k : A → M B) : M B :=
  λ s, match m s with
       | (Ok a, s') => k a s'
       | (Raise e, s') => (Raise e, s')
       end.

Definition lift {A} (r : result A) : M A := λ s, (r, s).

Definition raise {A} (e : exn) : M A := lift (Raise e).

Definition emit (e : event) : M unit :=
  λ s, (Ok tt, State (df s) (tfidf_matrix s) (filtered_df s) (out s ++ [e])).

Definition get_df : M DataFrame := λ s, (Ok (df s), s).
Definition set_df (d : DataFrame) : M unit :=
  λ s, (Ok tt, State d (tfidf_matrix s) (filtered_df s) (out s)).
Definition set_tfidf_matrix (m : list V) : M unit :=
  λ s, (Ok tt, State (df s) m (filtered_df s) (out s)).
Definition get_filtered_df : M DataFrame := λ s, (Ok (filtered_df s), s).
Definition set_filtered_df (d : DataFrame) : M unit :=
  λ s, (Ok tt, State (df s) (tfidf_matrix s) d (out s)).

Notation "x <- m ;; k" := (bind m (λ x, k))
  (at level 100, m at next level, right associativity).
Notation "m ;;; k" := (bind m (λ _, k))
  (at level 100, right associativity).

(** [for x in xs: body(x)] *)
Fixpoint for_each {A} (xs : list A) (body : A → M unit) : M unit :=
  match xs with
  | [] => ret tt
  | x :: xs' => body x ;;; for_each xs' body
  end.

(** [load_data] (lines 9-24) *)
Definition load_data (fs : disk) : M DataFrame :=
  match data_file fs with
  | None =>
      emit (st_error data_file_not_found) ;;;
      ret empty_frame
  | Some (header, records) => lift (read_csv header records)
  end.

(** [load_models] (lines 27-45) *)
Definition load_models (fs : disk) : M unit :=
  if negb (vectorizer_file fs) then raise (FileNotFoundError "TF-IDF vectorizer not found")
  else if negb (knn_model_file fs) then raise (FileNotFoundError "KNN model not found")
  else ret tt.

(** [vectorizer.transform(docs)]: a document that is not text is refused. *)
Fixpoint documents (docs : list cell) : result (list string) :=
  match docs with
  | [] => Ok []
  | Text x :: docs' => result_bind (documents docs') (λ xs, Ok (x :: xs))
  | NaN :: _ => Raise ValueError
  end.

Definition vectorizer_transform (docs : list cell) : M (list V) :=
  xs <- lift (documents docs) ;;
  emit (call_transform xs) ;;;
  ret (map transform xs).

(** [knn_model.kneighbors(query_vec, n_neighbors=k)], for one query. *)
Definition knn_kneighbors (query_vec : list V) (k : nat) : M (list nat) :=
  match query_vec with
  | [q] => emit (call_kneighbors q k) ;;; lift (kneighbors q k)
  | _ => raise ValueError
  end.

(** Lines 49-53. *)
Definition combined_text (name cuisines locality : Series cell) : Series cell :=
  add (add_str (add (add_str name " ") cuisines) " ") locality.

Definition startup (fs : disk) : M unit :=
  d <- load_data fs ;;
  set_df d ;;;
  load_models fs ;;;
  d <- get_df ;;
  name <- lift (getitem d "Restaurant_Name") ;;
  cuisines <- lift (getitem d "Cuisines") ;;
  locality <- lift (getitem d "Locality") ;;
  set_df (setitem d "combined_text" (combined_text name cuisines locality)) ;;;
  d <- get_df ;;
  texts <- lift (getitem d "combined_text") ;;
  m <- vectorizer_transform (map snd texts) ;;
  set_tfidf_matrix m.

(** Lines 72-76: the options of the two select boxes and the values the
    user picked. *)
Definition selectbox (options : list string) (choice : nat) : string :=
  nth choice options (hd EmptyString options).

Definition locality_options (d : DataFrame) : result (list string) :=
  result_bind (getitem d "Locality") (λ col,
  Ok ("Any" :: Str.sorted_set (dropna col))).

Definition cuisine_options (d : DataFrame) : result (list string) :=
  result_bind (getitem d "Cuisines") (λ col,
  Ok ("Any" :: Str.sorted_set (Str.split_comma_space (Str.join ", " (dropna col))))).

Definition sidebar (ui : sidebar_input) : M (string * string) :=
  d <- get_df ;;
  localities <- lift (locality_options d) ;;
  cuisines <- lift (cuisine_options d) ;;
  ret (selectbox localities (locality_choice ui),
       selectbox cuisines (cuisine_choice ui)).

(** Lines 82-88: the filter. *)
Definition filter_locality (selected_locality : string) : M unit :=
  if negb (String.eqb selected_locality "Any") then
    f <- get_filtered_df ;;
    col <- lift (getitem f "Locality") ;;
    set_filtered_df (boolean_index f (eq_str col selected_locality))
  else ret tt.

Definition filter_cuisine (selected_cuisine : string) : M unit :=
  if negb (String.eqb selected_cuisine "Any") then
    f <- get_filtered_df ;;
    col <- lift (getitem f "Cuisines") ;;
    mask <- lift (str_contains col selected_cuisine) ;;
    set_filtered_df (boolean_index f mask)
  else ret tt.

Definition apply_filters (selected_locality selected_cuisine : string) : M unit :=
  d <- get_df ;;
  set_filtered_df (copy d) ;;;
  filter_locality selected_locality ;;;
  filter_cuisine selected_cuisine.

(** Lines 102-113: one card. *)
Definition fmt (c : cell) : string :=
  match c with
  | Text x => x
  | NaN => "nan"
  end.

Definition maps_prefix : string := "https://www.google.com/maps/search/?api=1&query=".

Definition show_card (i : nat) : M unit :=
  d <- get_df ;;
  r <- lift (iloc d i) ;;
  address <- lift (field r "Detail_address") ;;
  quoted <- lift (Urllib.quote_plus address) ;;
  name <- lift (field r "Restaurant_Name") ;;
  cuisines <- lift (field r "Cuisines") ;;
  rating <- lift (field r "Ratings_out_of_5") ;;
  votes <- lift (field r "Number of votes") ;;
  emit (st_markdown_card
          (Card (fmt name) (fmt address) (fmt cuisines) (fmt rating) (fmt votes)
                (maps_prefix +:+ quoted))).

(** Lines 90-113. *)
Definition recommend : M unit :=
  f <- get_filtered_df ;;
  if empty f then
    emit (st_warning no_match_warning)
  else
    emit (st_success (len f)) ;;;
    seed <- lift (iloc f 0) ;;
    query <- lift (field seed "combined_text") ;;
    query_vec <- vectorizer_transform [query] ;;
    indices <- knn_kneighbors query_vec 6 ;;
    emit (st_markdown recommendations_heading) ;;;
    for_each (tail indices) show_card.

(** Lines 79-115: the button. *)
Definition find_restaurants (selected_locality selected_cuisine : string) : M unit :=
  apply_filters selected_locality selected_cuisine ;;;
  recommend.

(** One run of the script. *)
Definition main (fs : disk) (ui : sidebar_input) : M unit :=
  startup fs ;;;
  selected <- sidebar ui ;;
  if button ui then find_restaurants selected.1 selected.2
  else emit (st_info sidebar_hint).

End Script.

(** ** The banner (lines 56-62)

    [typewriter_effect] rewrites one placeholder once per character of
    its text; it is embedded by the successive contents of the
    placeholder.  The pauses between them are left out. *)

Fixpoint typewriter_loop (text full_text : string) : list string :=
  match text with
  | EmptyString => []
  | String char text' =>
      let full_text := full_text +:+ String char EmptyString in
      ("## " +:+ full_text) :: typewriter_loop text' full_text
  end.

Definition typewriter_effect (text : string) : list string :=
  typewriter_loop text EmptyString.

(** ** A small dataset and a small model, to run the script on *)

Definition header : list string :=
  ["Restaurant_Name"; "Cuisines"; "Locality"; "Detail_address";
   "Ratings_out_of_5"; "Number of votes"].

Definition rec6 (name cuisines locality address rating votes : string) : list cell :=
  [Text name; Text cuisines; Text locality; Text address; Text rating; Text votes].

Definition pune_records : list (list cell) :=
  [ rec6 "Spice Garden" "Chinese" "Baner" "12 Baner Road" "4.1" "210";
    rec6 "Pizza Point" "Pizza, Fast Food" "Koregaon Park" "Lane 5, Koregaon Park" "3.9" "154";
    rec6 "Smoke House" "Bar-B-Q, Grill" "Koregaon Park" "Lane 7, Koregaon Park" "4.3" "412";
    rec6 "Spice" "Garden Chinese" "Baner" "88 Baner Road" "3.5" "37";
    rec6 "Grill Hub" "Bar.B.Q" "Aundh" "ITI Road, Aundh" "4.0" "98";
    rec6 "Cafe Peter" "Cafe, Pizza" "Aundh" "DP Road, Aundh" "4.4" "523";
    rec6 "Udupi Bhavan" "South Indian" "Deccan" "JM Road, Deccan" "4.2" "301" ].

Definition pune_disk : disk := Disk (Some (header, pune_records)) true true.

(** The same installation without its dataset file. *)
Definition no_data_disk : disk := Disk None true true.

(** A record whose cuisines are missing. *)
Definition pune_records_na : list (list cell) :=
  [Text "Night Canteen"; NaN; Text "Baner"; Text "3 Baner Road"; Text "3.2"; Text "12"]
  :: pune_records.

(** The table as line 49 reads it, and as line 52 leaves it. *)
Definition frame_of (records : list (list cell)) : DataFrame :=
  match read_csv header records with
  | Ok d => d
  | Raise _ => empty_frame
  end.

Definition with_combined_text (records : list (list cell)) : DataFrame :=
  let d := frame_of records in
  match getitem d "Restaurant_Name", getitem d "Cuisines", getitem d "Locality" with
  | Ok n, Ok c, Ok l => setitem d "combined_text" (combined_text n c l)
  | _, _, _ => d
  end.

Definition pune_csv_na : DataFrame := frame_of pune_records_na.

(** A table none of whose rows has cuisines. *)
Definition no_cuisines_records : list (list cell) :=
  [ [Text "Night Canteen"; NaN; Text "Baner"; Text "3 Baner Road"; Text "3.2"; Text "12"];
    [Text "Tea Stall"; NaN; Text "Aundh"; Text "DP Road"; Text "3.9"; Text "40"] ].
Definition no_cuisines_df : DataFrame := frame_of no_cuisines_records.
Definition pune_df : DataFrame := with_combined_text pune_records.
Definition pune_df_na : DataFrame := with_combined_text pune_records_na.

(** A toy model: documents are their own vectors, and the index fitted on
    [fitted] ranks the rows equal to the query first and every other row
    after them, each group in row order. *)
Definition toy_transform (doc : string) : string := doc.

Fixpoint positions (p : string → bool) (i : nat) (l : list string) : list nat :=
  match l with
  | [] => []
  | x :: l' => if p x then i :: positions p (S i) l' else positions p (S i) l'
  end.

Definition toy_kneighbors (fitted : list string) (q : string) (k : nat) : result (list nat) :=
  if length fitted <? k then Raise ValueError
  else Ok (take k (positions (String.eqb q) 0 fitted
                   ++ positions (λ x, negb (String.eqb q x)) 0 fitted)).

Definition pune_texts : list string :=
  match getitem pune_df "combined_text" with
  | Ok col => dropna col
  | Raise _ => []
  end.

Definition pune_state : state (V := string) :=
  State pune_df (map toy_transform pune_texts) empty_frame [].

Definition pune_state_na : state (V := string) :=
  State pune_df_na [] empty_frame [].

(** The sample with the address of row 2 missing, and the states the
    further properties are run on. *)
Definition pune_records_no_address : list (list cell) :=
  [ rec6 "Spice Garden" "Chinese" "Baner" "12 Baner Road" "4.1" "210";
    rec6 "Pizza Point" "Pizza, Fast Food" "Koregaon Park" "Lane 5, Koregaon Park" "3.9" "154";
    [Text "Smoke House"; Text "Bar-B-Q, Grill"; Text "Koregaon Park"; NaN;
     Text "4.3"; Text "412"];
    rec6 "Spice" "Garden Chinese" "Baner" "88 Baner Road" "3.5" "37";
    rec6 "Grill Hub" "Bar.B.Q" "Aundh" "ITI Road, Aundh" "4.0" "98";
    rec6 "Cafe Peter" "Cafe, Pizza" "Aundh" "DP Road, Aundh" "4.4" "523" ].

Definition pune_df_no_address : DataFrame := with_combined_text pune_records_no_address.

Definition pune_state_no_address : state (V := string) :=
  State pune_df_no_address [] empty_frame [].

Definition pune_started : state (V := string) :=
  (startup toy_transform pune_disk initial).2.

(** ** Reference notions the properties are stated against *)

Module Spec.

(** [sub in s] *)
Fixpoint prefix (sub s : string) : bool :=
  match sub, s with
  | EmptyString, _ => true
  | String _ _, EmptyString => false
  | String a sub', String b s' => Ascii.eqb a b && prefix sub' s'
  end.

Fixpoint contains (sub s : string) : bool :=
  prefix sub s ||
  match s with
  | EmptyString => false
  | String _ s' => contains sub s'
  end.

(** [value] occurs in [s] as a case-insensitive substring. *)
Definition contains_ci (value s : string) : bool :=
  contains (Str.lower value) (Str.lower s).

(** The cuisine criterion as the specification words it, for a criterion
    other than ["Any"]: a missing field never matches. *)
Definition cuisine_matches (value : string) (c : cell) : bool :=
  match c with
  | Text x => contains_ci value x
  | NaN => false
  end.

(** The card of the row at position [i] of a table. *)
Definition card_of (d : DataFrame) (i : nat) : result card :=
  result_bind (iloc d i) (λ r,
  result_bind (field r "Detail_address") (λ address,
  result_bind (Urllib.quote_plus address) (λ quoted,
  result_bind (field r "Restaurant_Name") (λ name,
  result_bind (field r "Cuisines") (λ cuisines,
  result_bind (field r "Ratings_out_of_5") (λ rating,
  result_bind (field r "Number of votes") (λ votes,
  Ok (Card (fmt name) (fmt address) (fmt cuisines) (fmt rating) (fmt votes)
           (maps_prefix +:+ quoted))))))))).

(** The cards of the rows at positions [idxs], up to the first one that
    cannot be built, and how the loop over them ends. *)
Fixpoint cards_of (d : DataFrame) (idxs : list nat) : list card * result unit :=
  match idxs with
  | [] => ([], Ok tt)
  | i :: idxs' =>
      match card_of d i with
      | Ok c => let '(cs, r) := cards_of d idxs' in (c :: cs, r)
      | Raise e => ([], Raise e)
      end
  end.

(** The seed of a view: the combined text of its first row. *)
Definition seed_query (view : DataFrame) : result cell :=
  result_bind (iloc view 0) (λ seed, field seed "combined_text").

(** A row lacks one of the three fields its combined text is built from. *)
Definition missing_text (r : record) : Prop :=
  field r "Restaurant_Name" = Ok NaN ∨ field r "Cuisines" = Ok NaN ∨
  field r "Locality" = Ok NaN.

(** The combined text line 52 computes for a row whose name, cuisines
    and locality are at positions [jn], [jc] and [jl]. *)
Definition text_of_row (jn jc jl : nat) (r : row) : cell :=
  cell_add (cell_add (cell_add (cell_add (cell_at jn r) (Text " ")) (cell_at jc r))
                     (Text " "))
           (cell_at jl r).

(** The row with its combined text stored: in the column of that name
    when the table has one, else in a new last column. *)
Definition put_text (d : DataFrame) (v : cell) (r : row) : row :=
  match get_loc "combined_text" (columns d) with
  | Some j => set_cell j v r
  | None => append_cell v r
  end.

Definition columns_with_text (d : DataFrame) : list string :=
  match get_loc "combined_text" (columns d) with
  | Some _ => columns d
  | None => columns d ++ ["combined_text"]
  end.

(** The row of a table as [iloc] hands it out. *)
Definition record_of (cols : list string) (r : row) : record :=
  Record_ (label r) (zip cols (cells r)).

(** Every row has one cell per column. *)
Definition well_formed (d : DataFrame) : Prop :=
  Forall (λ r, length (cells r) = length (columns d)) (rows d).

(** [table] is what line 52 makes of the well-formed [d]. *)
Definition built_by_line_52 (d table : DataFrame) : Prop :=
  well_formed d ∧
  ∃ n c l, getitem d "Restaurant_Name" = Ok n ∧ getitem d "Cuisines" = Ok c ∧
           getitem d "Locality" = Ok l ∧
           table = setitem d "combined_text" (combined_text n c l).

(** A state after some more calls. *)
Definition log {V} (s : state (V := V)) (es : list event) : state :=
  State (df s) (tfidf_matrix s) (filtered_df s) (out s ++ es).

(** A computation that leaves the table and its feature matrix alone. *)
Definition preserves_table {V A} (m : M (V := V) A) : Prop :=
  ∀ s, df (m s).2 = df s ∧ tfidf_matrix (m s).2 = tfidf_matrix s.

(** What a step of the filter may change: only [filtered_df], and that
    only to a sub-sequence of its rows. *)
Definition narrows {V} (s s' : state (V := V)) : Prop :=
  df s' = df s ∧ tfidf_matrix s' = tfidf_matrix s ∧ out s' = out s ∧
  columns (filtered_df s') = columns (filtered_df s) ∧
  rows (filtered_df s') `sublist_of` rows (filtered_df s).

End Spec.

(** The two criteria as predicates on a row's cells, and what a table
    offers in its two select boxes. *)
Module Criteria.

Definition locality_ok (selected : string) (c : cell) : bool :=
  String.eqb selected "Any" ||
  match c with
  | Text x => String.eqb x selected
  | NaN => false
  end.

Definition cuisine_ok (selected : string) (c : cell) : bool :=
  String.eqb selected "Any" || Spec.cuisine_matches selected c.

(** Python's order on [str], and lists that are strictly increasing in
    it. *)
Definition lt (a b : string) : Prop := String.compare a b = Lt.

Definition increasing (l : list string) : Prop := StronglySorted lt l.

(** [x] is the locality of some row; [x] is one of the pieces, between
    [", "], of the cuisines of some row. *)
Definition has_locality (d : DataFrame) (j : nat) (x : string) : Prop :=
  ∃ r, r ∈ rows d ∧ cell_at j r = Text x.

Definition has_cuisine (d : DataFrame) (j : nat) (x : string) : Prop :=
  ∃ r x0, r ∈ rows d ∧ cell_at j r = Text x0 ∧ x ∈ Str.split_comma_space x0.

(** The characters a query string may hold as they are: the unreserved
    ones, ["+"] for a space, and ["%"] opening an escape. *)
Definition url_safe (c : ascii) : bool :=
  Urllib.always_safe c || Ascii.eqb c "+" || Ascii.eqb c "%".

Fixpoint all_chars (p : ascii → bool) (s : string) : bool :=
  match s with
  | EmptyString => true
  | String c s' => p c && all_chars p s'
  end.

End Criteria.

(** ** The string functions on examples *)

Example split_cuisines :
  Str.split_comma_space "Pizza, Fast Food, Cafe" = ["Pizza"; "Fast Food"; "Cafe"].
Proof. reflexivity. Qed.
Example split_empty : Str.split_comma_space "" = [""].
Proof. reflexivity. Qed.
Example sorted_set_ex : Str.sorted_set ["b"; "a"; "b"; "C"] = ["C"; "a"; "b"].
Proof. reflexivity. Qed.
Example lower_ex : Str.lower "PiZza-1" = "pizza-1".
Proof. reflexivity. Qed.


(** ** Properties of the filter (lines 82-88) *)

Lemma select_rows_sublist (rs : list row) (mask : Series bool) :
  select_rows rs mask `sublist_of` rs.
Proof.
  revert mask. induction rs as [|r rs IH]; intros [|[l b] mask]; simpl;
    try apply sublist_nil_l.
  destruct b; [apply sublist_skip | apply sublist_cons]; apply IH.
Qed.

Lemma select_rows_filter {A} (f : A → bool) (g : row → A) (rs : list row) :
  select_rows rs (map (λ r, (label r, f (g r))) rs) = List.filter (λ r, f (g r)) rs.
Proof.
  induction rs as [|r rs IH]; simpl; [reflexivity|].
  rewrite IH. reflexivity.
Qed.

Section FilterProperties.

Context {V : Type}.
Implicit Types s : state (V := V).

Lemma narrows_refl s : Spec.narrows s s.
Proof. repeat split; reflexivity. Qed.

Lemma narrows_trans s1 s2 s3 : Spec.narrows s1 s2 → Spec.narrows s2 s3 → Spec.narrows s1 s3.
Proof.
  intros (? & ? & ? & ? & ?) (? & ? & ? & ? & ?).
  repeat split; try congruence. etrans; eassumption.
Qed.

Lemma filter_locality_narrows loc s :
  Spec.narrows s (filter_locality loc s).2.
Proof.
  unfold filter_locality. destruct (negb _); [|apply narrows_refl].
  unfold bind, get_filtered_df, lift, set_filtered_df; simpl.
  destruct (getitem _ _); simpl; [|apply narrows_refl].
  repeat split; simpl. apply select_rows_sublist.
Qed.

Lemma filter_cuisine_narrows cui s :
  Spec.narrows s (filter_cuisine cui s).2.
Proof.
  unfold filter_cuisine. destruct (negb _); [|apply narrows_refl].
  unfold bind, get_filtered_df, lift, set_filtered_df; simpl.
  destruct (getitem _ _); simpl; [|apply narrows_refl].
  destruct (str_contains _ _); simpl; [|apply narrows_refl].
  repeat split; simpl. apply select_rows_sublist.
Qed.

Lemma apply_filters_narrows loc cui s :
  let s' := (apply_filters loc cui s).2 in
  df s' = df s ∧ tfidf_matrix s' = tfidf_matrix s ∧ out s' = out s ∧
  columns (filtered_df s') = columns (df s) ∧
  rows (filtered_df s') `sublist_of` rows (df s).
Proof.
  set (s0 := State (df s) (tfidf_matrix s) (df s) (out s)).
  assert (H : Spec.narrows s0 (apply_filters loc cui s).2).
  { unfold apply_filters, bind, get_df, set_filtered_df, copy; simpl. fold s0.
    pose proof (filter_locality_narrows loc s0) as H1.
    destruct (filter_locality loc s0) as [[[]|e] s1]; simpl in *; [|exact H1].
    eapply narrows_trans; [exact H1|]. apply filter_cuisine_narrows. }
  destruct H as (? & ? & ? & ? & ?). repeat split; assumption.
Qed.

(** C5.  Whatever the two criteria, the filtered view that lines 82-88
    leave has the columns of the table and its rows are a sub-sequence of
    the table's rows: each row of the view, index label included, is a row
    of the table, and the rows keep their relative order. *)
Theorem filtered_view_is_subsequence (selected_locality selected_cuisine : string) s :
  let view := filtered_df (apply_filters selected_locality selected_cuisine s).2 in
  columns view = columns (df s) ∧ rows view `sublist_of` rows (df s).
Proof.
  intros view.
  destruct (apply_filters_narrows selected_locality selected_cuisine s)
    as (_ & _ & _ & Hc & Hr).
  split; assumption.
Qed.

(** C7.  With both criteria left at ["Any"] the filter succeeds and the
    filtered view is the whole table. *)
Theorem any_any_is_identity s :
  (apply_filters "Any" "Any" s).1 = Ok tt ∧
  filtered_df (apply_filters "Any" "Any" s).2 = df s.
Proof. split; reflexivity. Qed.

End FilterProperties.

(** ** The cuisine criterion is a regular expression (lines 87-88) *)

Lemma not_special_not_dot c : Re.is_special c = false → Ascii.eqb c "." = false.
Proof.
  unfold Re.is_special, Re.special. simpl. intros H.
  apply orb_false_elim in H as [H _]. exact H.
Qed.

Lemma compile_plain pat :
  Re.has_special pat = false →
  ∃ re, Re.compile_atoms pat = Some re ∧
        ∀ s, Re.match_here re s = Spec.prefix (Str.lower pat) (Str.lower s).
Proof.
  induction pat as [|c pat IH]; simpl; intros H.
  - exists []. split; [reflexivity|]. intros s. destruct s; reflexivity.
  - apply orb_false_elim in H as [Hc Hp].
    destruct (IH Hp) as (re & Hre & Hm).
    exists (Re.Lit c :: re). rewrite (not_special_not_dot _ Hc), Hc, Hre.
    split; [reflexivity|].
    intros [|b s]; simpl; [reflexivity|]. rewrite Hm. reflexivity.
Qed.

Lemma search_plain re pat :
  (∀ s, Re.match_here re s = Spec.prefix (Str.lower pat) (Str.lower s)) →
  ∀ s, Re.search re s = Spec.contains_ci pat s.
Proof.
  intros Hm s. unfold Spec.contains_ci.
  induction s as [|b s IH]; simpl.
  - rewrite Hm. reflexivity.
  - rewrite Hm, IH. reflexivity.
Qed.

Section CuisineCriterion.

Context {V : Type}.
Implicit Types s : state (V := V).

(** C6, as amended.  For a selected cuisine other than ["Any"] that holds
    no special character of [re], the cuisine step succeeds and keeps
    exactly the rows whose cuisines cell contains the value as a
    case-insensitive substring; a row whose cuisines cell is missing is
    dropped. *)
Theorem cuisine_filter_plain_value s (value : string) (j : nat) :
  value ≠ "Any" →
  Re.has_special value = false →
  get_loc "Cuisines" (columns (filtered_df s)) = Some j →
  filter_cuisine value s =
    (Ok tt,
     State (df s) (tfidf_matrix s)
           (Frame (columns (filtered_df s))
                  (List.filter (λ r, Spec.cuisine_matches value (cell_at j r))
                               (rows (filtered_df s))))
           (out s)).
Proof.
  intros Hany Hplain Hj.
  unfold filter_cuisine.
  destruct (String.eqb_spec value "Any") as [->|_]; [congruence|]. simpl.
  unfold bind, get_filtered_df, lift, set_filtered_df, getitem. rewrite Hj. simpl.
  unfold str_contains, Re.compile.
  destruct (compile_plain value Hplain) as (re & -> & Hm). simpl.
  unfold boolean_index. rewrite map_map. simpl.
  rewrite (select_rows_filter (contains_cell re) (cell_at j)).
  do 3 f_equal. apply filter_ext. intros r.
  unfold contains_cell, Spec.cuisine_matches.
  destruct (cell_at j r); [reflexivity|]. apply search_plain, Hm.
Qed.

End CuisineCriterion.

(** ** Properties of the recommendation (lines 90-113) *)

Section Recommendation.

Context {V : Type}.
Variable transform : string → V.
Variable kneighbors : V → nat → result (list nat).
Implicit Types s : state (V := V).

Lemma log_nil s : Spec.log s [] = s.
Proof. destruct s. unfold Spec.log. simpl. rewrite app_nil_r. reflexivity. Qed.

Lemma log_log s es es' : Spec.log (Spec.log s es) es' = Spec.log s (es ++ es').
Proof. unfold Spec.log. simpl. rewrite app_assoc. reflexivity. Qed.

Lemma show_card_run i s :
  show_card i s =
    match Spec.card_of (df s) i with
    | Ok c => (Ok tt, Spec.log s [st_markdown_card c])
    | Raise e => (Raise e, s)
    end.
Proof.
  unfold show_card, Spec.card_of, bind, get_df, lift, emit, Spec.log. simpl.
  destruct (iloc (df s) i) as [r|]; simpl; [|reflexivity].
  repeat (match goal with
          | |- context [field r ?c] => destruct (field r c); simpl; [|reflexivity]
          | |- context [Urllib.quote_plus ?a] =>
              destruct (Urllib.quote_plus a); simpl; [|reflexivity]
          end).
  reflexivity.
Qed.

Lemma for_each_show_card idxs s :
  for_each idxs show_card s =
    ((Spec.cards_of (df s) idxs).2,
     Spec.log s (map st_markdown_card (Spec.cards_of (df s) idxs).1)).
Proof.
  revert s. induction idxs as [|i idxs IH]; intros s; simpl.
  - unfold ret. rewrite log_nil. reflexivity.
  - unfold bind. rewrite show_card_run.
    destruct (Spec.card_of (df s) i) as [c|e]; simpl.
    + rewrite IH. simpl.
      destruct (Spec.cards_of (df s) idxs) as [cs r]. simpl.
      rewrite log_log. reflexivity.
    + rewrite log_nil. reflexivity.
Qed.

Lemma seed_query_not_empty view c :
  Spec.seed_query view = Ok c → empty view = false.
Proof.
  unfold Spec.seed_query, iloc, empty, field.
  destruct view as [cols [|r rs]]; simpl; [discriminate|].
  destruct cols; simpl; [discriminate|reflexivity].
Qed.

(** The run of lines 90-113 on a view whose seed text is defined. *)
Lemma recommend_run s q idxs :
  Spec.seed_query (filtered_df s) = Ok (Text q) →
  kneighbors (transform q) 6 = Ok idxs →
  recommend transform kneighbors s =
    ((Spec.cards_of (df s) (tail idxs)).2,
     Spec.log s
       ([st_success (len (filtered_df s)); call_transform [q];
         call_kneighbors (transform q) 6; st_markdown recommendations_heading]
        ++ map st_markdown_card (Spec.cards_of (df s) (tail idxs)).1)).
Proof.
  intros Hseed Hknn. unfold recommend.
  unfold bind at 1. unfold get_filtered_df.
  rewrite (seed_query_not_empty _ _ Hseed).
  unfold Spec.seed_query in Hseed.
  unfold bind, emit, lift. simpl.
  destruct (iloc (filtered_df s) 0) as [seed|]; simpl in *; [|discriminate].
  rewrite Hseed. simpl. rewrite Hknn. simpl.
  rewrite for_each_show_card. simpl.
  unfold Spec.log. simpl. rewrite <- !app_assoc. reflexivity.
Qed.

(** The run of lines 90-91 on a view without rows. *)
Lemma recommend_no_rows s :
  rows (filtered_df s) = [] →
  recommend transform kneighbors s = (Ok tt, Spec.log s [st_warning no_match_warning]).
Proof.
  intros Hrows. unfold recommend, bind, get_filtered_df, empty. rewrite Hrows.
  destruct (columns (filtered_df s)); reflexivity.
Qed.

Lemma find_restaurants_run loc cui s :
  (apply_filters loc cui s).1 = Ok tt →
  find_restaurants transform kneighbors loc cui s =
    recommend transform kneighbors (apply_filters loc cui s).2.
Proof.
  unfold find_restaurants, bind.
  destruct (apply_filters loc cui s) as [[[]|e] s1]; simpl; [reflexivity|discriminate].
Qed.

(** C3.  When the filter leaves a view whose seed text is [q] and the
    index answers [idxs], the button shows the cards of the rows found at
    positions [tail idxs] of the table [df] itself, up to the first card
    that cannot be built.  Of the two criteria, only the seed text [q] and
    the number of matches reach the output: the rows come from [df], never
    from the view. *)
Theorem recommendations_come_from_the_table (selected_locality selected_cuisine : string)
    s (q : string) (idxs : list nat) :
  (apply_filters selected_locality selected_cuisine s).1 = Ok tt →
  Spec.seed_query (filtered_df (apply_filters selected_locality selected_cuisine s).2)
    = Ok (Text q) →
  kneighbors (transform q) 6 = Ok idxs →
  let run := find_restaurants transform kneighbors selected_locality selected_cuisine s in
  let matches := len (filtered_df (apply_filters selected_locality selected_cuisine s).2) in
  run.1 = (Spec.cards_of (df s) (tail idxs)).2 ∧
  out run.2 =
    out s ++ [st_success matches; call_transform [q];
              call_kneighbors (transform q) 6; st_markdown recommendations_heading]
          ++ map st_markdown_card (Spec.cards_of (df s) (tail idxs)).1.
Proof.
  intros Hf Hseed Hknn run matches. subst run matches.
  rewrite (find_restaurants_run _ _ _ Hf).
  rewrite (recommend_run _ q idxs Hseed Hknn). simpl.
  destruct (apply_filters_narrows selected_locality selected_cuisine s)
    as (Hdf & _ & Hout & _ & _).
  rewrite Hdf, Hout. split; reflexivity.
Qed.

(** C4.  When the filter succeeds and leaves no row, the button emits the
    no-match warning and nothing else: no document is vectorized and the
    nearest-neighbour index is not queried. *)
Theorem no_match_warns_without_query (selected_locality selected_cuisine : string) s :
  (apply_filters selected_locality selected_cuisine s).1 = Ok tt →
  rows (filtered_df (apply_filters selected_locality selected_cuisine s).2) = [] →
  let run := find_restaurants transform kneighbors selected_locality selected_cuisine s in
  run.1 = Ok tt ∧
  out run.2 = out s ++ [st_warning no_match_warning] ∧
  ∀ q k, call_kneighbors q k ∉ drop (length (out s)) (out run.2).
Proof.
  intros Hf Hrows run. subst run.
  rewrite (find_restaurants_run _ _ _ Hf), (recommend_no_rows _ Hrows). simpl.
  destruct (apply_filters_narrows selected_locality selected_cuisine s)
    as (_ & _ & Hout & _ & _).
  rewrite Hout. repeat split.
  intros q k. rewrite drop_app_length.
  intros Hin. apply list_elem_of_singleton in Hin. discriminate.
Qed.

End Recommendation.

(** ** The combined text and the feature matrix (lines 52-53) *)

Lemma get_loc_lt c cols j : get_loc c cols = Some j → j < length cols.
Proof.
  revert j. induction cols as [|c' cols IH]; simpl; intros j; [discriminate|].
  destruct (String.eqb c c'); [intros [= <-]; lia|].
  destruct (get_loc c cols) as [k|]; simpl; [|discriminate].
  intros [= <-]. specialize (IH k eq_refl). lia.
Qed.

Lemma get_loc_app_l c cols extra j :
  get_loc c cols = Some j → get_loc c (cols ++ extra) = Some j.
Proof.
  revert j. induction cols as [|c' cols IH]; simpl; intros j; [discriminate|].
  destruct (String.eqb c c'); [trivial|].
  destruct (get_loc c cols) as [k|]; simpl; [|discriminate].
  intros [= <-]. rewrite (IH k eq_refl). reflexivity.
Qed.

Lemma get_loc_app_new c cols :
  get_loc c cols = None → get_loc c (cols ++ [c]) = Some (length cols).
Proof.
  induction cols as [|c' cols IH]; simpl.
  - rewrite String.eqb_refl. reflexivity.
  - destruct (String.eqb c c'); [discriminate|].
    destruct (get_loc c cols); simpl; [discriminate|].
    intros _. rewrite IH; reflexivity.
Qed.

Lemma get_loc_same_position c c' cols j :
  get_loc c cols = Some j → get_loc c' cols = Some j → c = c'.
Proof.
  revert j. induction cols as [|x cols IH]; simpl; intros j; [discriminate|].
  destruct (String.eqb_spec c x) as [->|Hc], (String.eqb_spec c' x) as [->|Hc'].
  - reflexivity.
  - intros [= <-]. destruct (get_loc c' cols); discriminate.
  - destruct (get_loc c cols); simpl; [|discriminate]. intros [= <-]. discriminate.
  - intros (k & Hk & ->)%fmap_Some (k' & Hk' & [= ->])%fmap_Some.
    eapply IH; eassumption.
Qed.

Lemma assoc_zip c cols (cs : list cell) j :
  get_loc c cols = Some j → j < length cs →
  assoc c (zip cols cs) = Some (nth j cs NaN).
Proof.
  revert j cs. induction cols as [|c' cols IH]; simpl; intros j cs; [discriminate|].
  destruct cs as [|v cs]; simpl; [lia|].
  destruct (String.eqb c c'); [intros [= <-] _; reflexivity|].
  destruct (get_loc c cols) as [k|]; simpl; [|discriminate].
  intros [= <-] Hlt. apply IH; [reflexivity|lia].
Qed.

(** Line 52, as one pass over the rows. *)
Lemma line_52 d jn jc jl n c l :
  get_loc "Restaurant_Name" (columns d) = Some jn →
  get_loc "Cuisines" (columns d) = Some jc →
  get_loc "Locality" (columns d) = Some jl →
  getitem d "Restaurant_Name" = Ok n ∧ getitem d "Cuisines" = Ok c ∧
  getitem d "Locality" = Ok l →
  setitem d "combined_text" (combined_text n c l) =
    Frame (Spec.columns_with_text d)
          (map (λ r, Spec.put_text d (Spec.text_of_row jn jc jl r) r) (rows d)).
Proof.
  unfold getitem. intros -> -> -> ([= <-] & [= <-] & [= <-]).
  unfold combined_text, add, add_str, setitem, Spec.columns_with_text, Spec.put_text.
  destruct (get_loc "combined_text" (columns d)); f_equal;
    induction (rows d) as [|r rs IH]; simpl; [reflexivity| |reflexivity|];
    rewrite IH; reflexivity.
Qed.

(** What a row reads as once its combined text is stored. *)
Lemma put_text_fields d v r :
  length (cells r) = length (columns d) →
  let r' := Spec.record_of (Spec.columns_with_text d) (Spec.put_text d v r) in
  field r' "combined_text" = Ok v ∧
  ∀ c j, c ≠ "combined_text" → get_loc c (columns d) = Some j →
         field r' c = Ok (cell_at j r).
Proof.
  intros Hlen. unfold Spec.record_of, Spec.columns_with_text, Spec.put_text, field.
  destruct (get_loc "combined_text" (columns d)) as [jt|] eqn:Ht; simpl.
  - pose proof (get_loc_lt _ _ _ Ht) as Hjt. split.
    + rewrite (assoc_zip _ _ _ jt Ht) by (rewrite length_insert; lia).
      rewrite nth_lookup, list_lookup_insert_eq by lia. reflexivity.
    + intros c j Hc Hj. pose proof (get_loc_lt _ _ _ Hj).
      rewrite (assoc_zip _ _ _ j Hj) by (rewrite length_insert; lia).
      rewrite nth_lookup, list_lookup_insert_ne, <- nth_lookup; [reflexivity|].
      intros ->. apply Hc. eapply get_loc_same_position; eassumption.
  - split.
    + rewrite (assoc_zip _ _ _ (length (columns d)))
        by (rewrite ?length_app; simpl; auto using get_loc_app_new; lia).
      rewrite <- Hlen, nth_middle. reflexivity.
    + intros c j Hc Hj. pose proof (get_loc_lt _ _ _ Hj).
      rewrite (assoc_zip _ _ _ j) by (rewrite ?length_app; auto using get_loc_app_l; lia).
      unfold cell_at. rewrite app_nth1 by lia. reflexivity.
Qed.

Lemma text_of_row_missing jn jc jl r :
  cell_at jn r = NaN ∨ cell_at jc r = NaN ∨ cell_at jl r = NaN →
  Spec.text_of_row jn jc jl r = NaN.
Proof.
  unfold Spec.text_of_row.
  destruct (cell_at jn r), (cell_at jc r), (cell_at jl r); simpl;
    intros [H | [H | H]]; solve [reflexivity | discriminate H].
Qed.

Lemma iloc_record_of d i r :
  iloc d i = Ok r ↔ ∃ row, rows d !! i = Some row ∧ r = Spec.record_of (columns d) row.
Proof.
  unfold iloc, Spec.record_of. destruct (rows d !! i) as [row|]; split.
  - intros [= <-]. exists row. split; reflexivity.
  - intros (row' & [= <-] & ->). reflexivity.
  - discriminate.
  - intros (? & ? & _). discriminate.
Qed.

Lemma getitem_get_loc d c col :
  getitem d c = Ok col →
  ∃ j, get_loc c (columns d) = Some j ∧ col = map (λ r, (label r, cell_at j r)) (rows d).
Proof.
  unfold getitem. destruct (get_loc c (columns d)) as [j|]; [|discriminate].
  intros [= <-]. exists j. split; reflexivity.
Qed.

Lemma lookup_map {A B} (f : A → B) (l : list A) i :
  map f l !! i = f <$> l !! i.
Proof.
  revert i. induction l as [|x l IH]; intros [|i]; simpl; try reflexivity. apply IH.
Qed.

(** Line 52, row by row: the combined text of a row is the sum of its
    name, a space, its cuisines, a space and its locality. *)
Lemma record_text d table i r :
  Spec.built_by_line_52 d table →
  iloc table i = Ok r →
  ∃ a b c, field r "Restaurant_Name" = Ok a ∧ field r "Cuisines" = Ok b ∧
           field r "Locality" = Ok c ∧
           field r "combined_text" =
             Ok (cell_add (cell_add (cell_add (cell_add a (Text " ")) b) (Text " ")) c).
Proof.
  intros (Hwf & n & c & l & Hn & Hc & Hl & ->) Hr.
  destruct (getitem_get_loc _ _ _ Hn) as (jn & Hjn & _).
  destruct (getitem_get_loc _ _ _ Hc) as (jc & Hjc & _).
  destruct (getitem_get_loc _ _ _ Hl) as (jl & Hjl & _).
  rewrite (line_52 d jn jc jl n c l Hjn Hjc Hjl (conj Hn (conj Hc Hl))) in Hr.
  apply iloc_record_of in Hr as (row' & Hrow' & ->). simpl in Hrow'.
  rewrite lookup_map in Hrow'.
  destruct (rows d !! i) as [row|] eqn:Hrow; [|discriminate].
  injection Hrow' as <-.
  assert (Hlen : length (cells row) = length (columns d)).
  { eapply (proj1 (Forall_lookup _ _) Hwf); eassumption. }
  destruct (put_text_fields d (Spec.text_of_row jn jc jl row) row Hlen) as [Ht Hf].
  exists (cell_at jn row), (cell_at jc row), (cell_at jl row). simpl.
  repeat split; try (apply Hf; [discriminate|assumption]). exact Ht.
Qed.

Lemma view_row_in_table view table i r :
  columns view = columns table →
  rows view `sublist_of` rows table →
  iloc view i = Ok r → ∃ k, iloc table k = Ok r.
Proof.
  intros Hc Hs Hr. apply iloc_record_of in Hr as (row & Hrow & ->).
  assert (Hin : row ∈ rows table).
  { eapply sublist_subseteq; [exact Hs|]. eapply list_elem_of_lookup_2, Hrow. }
  apply list_elem_of_lookup_1 in Hin as [k Hk].
  exists k. apply iloc_record_of. exists row. rewrite Hc. split; [exact Hk|reflexivity].
Qed.

Section MissingText.

Context {V : Type}.
Variable transform : string → V.
Variable kneighbors : V → nat → result (list nat).
Implicit Types s : state (V := V).

Lemma missing_text_combined d table i r :
  Spec.built_by_line_52 d table → iloc table i = Ok r →
  Spec.missing_text r → field r "combined_text" = Ok NaN.
Proof.
  intros Hb Hr Hm.
  destruct (record_text _ _ _ _ Hb Hr) as (a & b & c & Ha & Hb' & Hc & ->).
  unfold Spec.missing_text in Hm. rewrite Ha, Hb', Hc in Hm.
  destruct a, b, c, Hm as [Hm | [Hm | Hm]]; solve [reflexivity | discriminate Hm].
Qed.

(** Lines 90-97 on a view whose seed text is missing. *)
Lemma recommend_missing_seed s :
  Spec.seed_query (filtered_df s) = Ok NaN →
  recommend transform kneighbors s =
    (Raise ValueError, Spec.log s [st_success (len (filtered_df s))]).
Proof.
  intros Hseed. unfold recommend.
  unfold bind at 1. unfold get_filtered_df.
  rewrite (seed_query_not_empty _ _ Hseed).
  unfold Spec.seed_query in Hseed.
  unfold bind, emit, lift. simpl.
  destruct (iloc (filtered_df s) 0) as [seed|]; simpl in *; [|discriminate].
  rewrite Hseed. reflexivity.
Qed.

(** C10.  In the table line 52 builds, every row that lacks its name, its
    cuisines or its locality has a missing combined text; and when the
    filter leaves a view whose first row is such a row, the button
    announces the matches and then stops with the vectorizer's refusal of
    the seed, before any query of the index and before any card. *)
Theorem missing_field_fails_seed_vectorization d s :
  Spec.built_by_line_52 d (df s) →
  (∀ i r, iloc (df s) i = Ok r → Spec.missing_text r →
          field r "combined_text" = Ok NaN) ∧
  (∀ selected_locality selected_cuisine seed,
     let filtered := apply_filters selected_locality selected_cuisine s in
     filtered.1 = Ok tt →
     iloc (filtered_df filtered.2) 0 = Ok seed →
     Spec.missing_text seed →
     find_restaurants transform kneighbors selected_locality selected_cuisine s =
       (Raise ValueError,
        Spec.log filtered.2 [st_success (len (filtered_df filtered.2))])).
Proof.
  intros Hb. split.
  - intros i r Hr Hm. eapply missing_text_combined; eassumption.
  - intros loc cui seed filtered Hok Hseed Hm. subst filtered.
    rewrite (find_restaurants_run _ _ _ _ _ Hok).
    apply recommend_missing_seed.
    destruct (apply_filters_narrows loc cui s) as (_ & _ & _ & Hc & Hs).
    destruct (view_row_in_table _ _ _ _ Hc Hs Hseed) as [k Hk].
    unfold Spec.seed_query. rewrite Hseed. simpl.
    eapply missing_text_combined; eassumption.
Qed.

End MissingText.

Lemma append_assoc (a b c : string) : (a +:+ b) +:+ c = a +:+ (b +:+ c).
Proof.
  induction a as [|x a IH]; [reflexivity|].
  change (String x ((a +:+ b) +:+ c) = String x (a +:+ (b +:+ c))).
  f_equal. exact IH.
Qed.

Lemma read_csv_well_formed header records d :
  read_csv header records = Ok d → Spec.well_formed d.
Proof.
  unfold read_csv. destruct (forallb _ _) eqn:Hall; [|discriminate].
  intros [= <-]. unfold Spec.well_formed. simpl.
  apply Forall_lookup. intros i r Hr.
  rewrite list_lookup_imap in Hr.
  destruct (records !! i) as [rec|] eqn:Hrec; [|discriminate].
  injection Hr as <-. simpl. unfold pad.
  rewrite length_app, length_replicate.
  rewrite forallb_forall in Hall.
  assert (Hle : (length rec <=? length header) = true).
  { apply Hall. apply list_elem_of_In. eapply list_elem_of_lookup_2, Hrec. }
  apply Nat.leb_le in Hle. lia.
Qed.

Lemma documents_texts cs xs : documents cs = Ok xs → cs = map Text xs.
Proof.
  revert xs. induction cs as [|[|x] cs IH]; simpl; intros xs.
  - intros [= <-]. reflexivity.
  - discriminate.
  - destruct (documents cs) as [ys|]; simpl; [|discriminate].
    intros [= <-]. simpl. rewrite (IH ys eq_refl). reflexivity.
Qed.

Section Startup.

Context {V : Type}.
Variable transform : string → V.
Variable kneighbors : V → nat → result (list nat).
Implicit Types s : state (V := V).

(** What a successful run of lines 49-53 leaves. *)
Lemma startup_ok fs s :
  startup transform fs initial = (Ok tt, s) →
  ∃ d texts xs,
    Spec.built_by_line_52 d (df s) ∧
    getitem (df s) "combined_text" = Ok texts ∧
    map snd texts = map Text xs ∧
    tfidf_matrix s = map transform xs.
Proof.
  destruct fs as [[[header records]|] vf kf]; unfold startup, load_data, load_models; simpl.
  - unfold bind at 1. unfold lift at 1.
    destruct (read_csv header records) as [d|] eqn:Hd; simpl; [|discriminate].
    destruct vf, kf; simpl; try discriminate.
    unfold bind, lift, get_df, set_df. simpl.
    destruct (getitem d "Restaurant_Name") as [n|] eqn:Hn; [|discriminate].
    destruct (getitem d "Cuisines") as [c|] eqn:Hc; [|discriminate].
    destruct (getitem d "Locality") as [l|] eqn:Hl; [|discriminate].
    destruct (getitem (setitem _ _ _) _) as [texts|] eqn:Ht; [|discriminate].
    unfold vectorizer_transform, bind, lift, emit, ret, set_tfidf_matrix. simpl.
    destruct (documents (map snd texts)) as [xs|] eqn:Hx; simpl; [|discriminate].
    intros [= <-]. simpl. exists d, texts, xs.
    repeat split; try assumption.
    + eapply read_csv_well_formed, Hd.
    + exists n, c, l. repeat split; assumption.
    + apply documents_texts, Hx.
  - destruct vf, kf; simpl; discriminate.
Qed.

Lemma preserves_bind {A B} (m : M (V := V) A) (k : A → M B) :
  Spec.preserves_table m → (∀ a, Spec.preserves_table (k a)) →
  Spec.preserves_table (bind m k).
Proof.
  intros Hm Hk s. unfold bind. specialize (Hm s).
  destruct (m s) as [[a|e] s1]; simpl in *; [|exact Hm].
  destruct (Hk a s1) as [H1 H2]. destruct Hm as [H3 H4]. split; congruence.
Qed.

Lemma preserves_lift {A} (r : result A) : Spec.preserves_table (V := V) (lift r).
Proof. intros s. split; reflexivity. Qed.

Lemma preserves_emit e : Spec.preserves_table (V := V) (emit e).
Proof. intros s. split; reflexivity. Qed.

Lemma preserves_for_each {A} (xs : list A) (body : A → M (V := V) unit) :
  (∀ x, Spec.preserves_table (body x)) → Spec.preserves_table (for_each xs body).
Proof.
  intros Hb. induction xs as [|x xs IH]; simpl.
  - intros s. split; reflexivity.
  - apply preserves_bind; [apply Hb | intros _; exact IH].
Qed.

Lemma preserves_show_card i : Spec.preserves_table (V := V) (show_card i).
Proof.
  intros s. rewrite show_card_run. destruct (Spec.card_of _ _); split; reflexivity.
Qed.

Lemma preserves_vectorizer_transform docs :
  Spec.preserves_table (vectorizer_transform transform docs).
Proof.
  unfold vectorizer_transform.
  apply preserves_bind; [apply preserves_lift | intros xs].
  apply preserves_bind; [apply preserves_emit | intros _].
  intros s. split; reflexivity.
Qed.

Lemma preserves_knn_kneighbors qs k :
  Spec.preserves_table (knn_kneighbors kneighbors qs k).
Proof.
  unfold knn_kneighbors. destruct qs as [|q [|]]; try apply preserves_lift.
  apply preserves_bind; [apply preserves_emit | intros _; apply preserves_lift].
Qed.

Lemma preserves_recommend : Spec.preserves_table (recommend transform kneighbors).
Proof.
  unfold recommend.
  apply preserves_bind; [intros s; split; reflexivity | intros f].
  destruct (empty f); [apply preserves_emit|].
  repeat (apply preserves_bind;
          [first [apply preserves_emit | apply preserves_lift
                 | apply preserves_vectorizer_transform
                 | apply preserves_knn_kneighbors] | intros ?]).
  apply preserves_for_each, preserves_show_card.
Qed.

Lemma preserves_find_restaurants loc cui :
  Spec.preserves_table (find_restaurants transform kneighbors loc cui).
Proof.
  unfold find_restaurants. apply preserves_bind; [|intros _; apply preserves_recommend].
  intros s. destruct (apply_filters_narrows loc cui s) as (H1 & H2 & _). split; assumption.
Qed.

Lemma assoc_zip_inv c cols (cs : list cell) j v :
  get_loc c cols = Some j → assoc c (zip cols cs) = Some v → nth j cs NaN = v.
Proof.
  revert j cs. induction cols as [|c' cols IH]; simpl; intros j cs; [discriminate|].
  destruct cs as [|x cs]; simpl; [discriminate|].
  destruct (String.eqb c c'); [intros [= <-] [= <-]; reflexivity|].
  intros (k & Hk & ->)%fmap_Some Hv. eapply IH; eassumption.
Qed.

(** C8.  After a successful start-up, every row of the table has its
    name, cuisines and locality, its combined text is these three joined
    by single spaces, and the row of the feature matrix at the same
    position is the vectorizer's transform of that text; and the button,
    whatever the criteria and however it ends, leaves both the table and
    the matrix as they were. *)
Theorem matrix_rows_follow_table_rows fs s :
  startup transform fs initial = (Ok tt, s) →
  length (tfidf_matrix s) = len (df s) ∧
  (∀ i r, iloc (df s) i = Ok r →
     ∃ n c l,
       field r "Restaurant_Name" = Ok (Text n) ∧ field r "Cuisines" = Ok (Text c) ∧
       field r "Locality" = Ok (Text l) ∧
       field r "combined_text" = Ok (Text (Str.join " " [n; c; l])) ∧
       tfidf_matrix s !! i = Some (transform (Str.join " " [n; c; l]))) ∧
  (∀ selected_locality selected_cuisine,
     let s' := (find_restaurants transform kneighbors selected_locality selected_cuisine s).2 in
     df s' = df s ∧ tfidf_matrix s' = tfidf_matrix s).
Proof.
  intros Hstart.
  destruct (startup_ok _ _ Hstart) as (d & texts & xs & Hb & Ht & Hx & Hm).
  destruct (getitem_get_loc _ _ _ Ht) as (jt & Hjt & Htexts).
  assert (Hcells : map (cell_at jt) (rows (df s)) = map Text xs).
  { rewrite <- Hx, Htexts, map_map. reflexivity. }
  split; [|split].
  - rewrite Hm, length_map. unfold len.
    rewrite <- (length_map (cell_at jt)), Hcells, length_map. reflexivity.
  - intros i r Hr.
    destruct (record_text _ _ _ _ Hb Hr) as (a & b & c & Ha & Hb' & Hc & Hcomb).
    apply iloc_record_of in Hr as (row & Hrow & ->).
    assert (Hv : cell_at jt row =
                 cell_add (cell_add (cell_add (cell_add a (Text " ")) b) (Text " ")) c).
    { unfold field, Spec.record_of in Hcomb. simpl in Hcomb.
      destruct (assoc _ _) as [v|] eqn:Hv; [|discriminate].
      injection Hcomb as <-. eapply assoc_zip_inv; eassumption. }
    assert (Hi : map Text xs !! i = Some (cell_at jt row)).
    { rewrite <- Hcells, lookup_map, Hrow. reflexivity. }
    rewrite lookup_map in Hi.
    destruct (xs !! i) as [x|] eqn:Hxi; [|discriminate].
    injection Hi as Hi. rewrite Hv in Hi.
    destruct a as [|n], b as [|cu], c as [|l]; try discriminate Hi.
    simpl in Hi. injection Hi as ->.
    exists n, cu, l. rewrite Ha, Hb', Hc, Hcomb. simpl.
    rewrite !append_assoc. repeat split.
    rewrite Hm, lookup_map, Hxi. simpl. rewrite !append_assoc. reflexivity.
  - intros loc cui. apply preserves_find_restaurants.
Qed.

(** C2.  Without the dataset file, [load_data] reports the error and
    returns the empty table, and line 52 then fails on the column the
    empty table does not have: the run ends with an uncaught [KeyError]
    and nothing but the error message on the page. *)
Theorem missing_dataset_ends_in_KeyError (ui : sidebar_input) :
  load_data (V := V) no_data_disk initial
    = (Ok empty_frame, Spec.log initial [st_error data_file_not_found]) ∧
  main transform kneighbors no_data_disk ui initial
    = (Raise (KeyError "Restaurant_Name"),
       Spec.log initial [st_error data_file_not_found]).
Proof. split; reflexivity. Qed.

End Startup.

(** ** The first neighbour and the seed (lines 96-101) *)

(** C1.  Line 101 drops the first index the model returns, taking it for
    the seed.  Rows 0 and 3 of the sample table have one and the same
    combined text, and each is the seed of a view: row 0 with both
    criteria at ["Any"], row 3 with the cuisine ["Garden Chinese"].  With
    the sample index the second view gets the answer [0; 3; 1; 2; 4; 5]:
    row 0 is dropped and the seed, row 3, is shown as the first of its own
    recommendations.  And no model does better on both views: it is asked
    the same query for both, so the first index of its answer is not the
    seed's own for one of them. *)
Theorem first_neighbour_need_not_be_the_seed :
  (let run := find_restaurants toy_transform (toy_kneighbors pune_texts)
                "Any" "Garden Chinese" pune_state in
   len pune_df = 7 ∧
   map name_ (match iloc (filtered_df run.2) 0 with Ok seed => [seed] | Raise _ => [] end) = [3] ∧
   toy_kneighbors pune_texts (toy_transform "Spice Garden Chinese Baner") 6
     = Ok [0; 3; 1; 2; 4; 5] ∧
   run.1 = Ok tt ∧
   omap (λ e, match e with st_markdown_card c => Some (card_name c) | _ => None end)
        (out run.2)
     = ["Spice"; "Pizza Point"; "Smoke House"; "Grill Hub"; "Cafe Peter"]) ∧
  (∀ (V : Type) (transform : string → V) (kneighbors : V → nat → result (list nat)),
     ∃ selected_locality selected_cuisine seed q,
       let filtered := apply_filters selected_locality selected_cuisine
                         (State (V := V) pune_df [] empty_frame []) in
       filtered.1 = Ok tt ∧
       iloc (filtered_df filtered.2) 0 = Ok seed ∧
       field seed "combined_text" = Ok (Text q) ∧
       ∀ idxs, kneighbors (transform q) 6 = Ok idxs → head idxs ≠ Some (name_ seed)).
Proof.
  split; [repeat split|].
  intros V transform kneighbors.
  destruct (kneighbors (transform "Spice Garden Chinese Baner") 6) as [idxs|e] eqn:Hk.
  - destruct (decide (head idxs = Some 0)) as [H0|H0].
    + eexists "Any", "Garden Chinese", _, "Spice Garden Chinese Baner".
      split; [reflexivity|]. split; [reflexivity|]. split; [reflexivity|].
      intros idxs' Hk'. simpl in Hk'. rewrite Hk in Hk'. injection Hk' as <-.
      rewrite H0. simpl. discriminate.
    + eexists "Any", "Any", _, "Spice Garden Chinese Baner".
      split; [reflexivity|]. split; [reflexivity|]. split; [reflexivity|].
      intros idxs' Hk'. simpl in Hk'. rewrite Hk in Hk'. injection Hk' as <-.
      exact H0.
  - eexists "Any", "Any", _, "Spice Garden Chinese Baner".
    split; [reflexivity|]. split; [reflexivity|]. split; [reflexivity|].
    intros idxs' Hk'. simpl in Hk'. rewrite Hk in Hk'. discriminate.
Qed.

(** ** The cuisine value as a pattern, on the sample table *)

(** C9.  ["Bar.B.Q"] is one of the cuisines the sidebar offers for the
    sample table and holds the special character ["."].  Selecting it
    keeps rows 2 and 4, although only row 4 has a cuisines cell that
    contains the value itself, with or without regard to case: in row 2,
    ["Bar-B-Q, Grill"], the two dots matched the two hyphens. *)
Theorem cuisine_value_is_a_pattern :
  ∃ value,
    Re.has_special value = true ∧
    cuisine_options pune_df
      = Ok ["Any"; "Bar-B-Q"; "Bar.B.Q"; "Cafe"; "Chinese"; "Fast Food";
            "Garden Chinese"; "Grill"; "Pizza"; "South Indian"] ∧
    value ∈ ["Any"; "Bar-B-Q"; "Bar.B.Q"; "Cafe"; "Chinese"; "Fast Food";
             "Garden Chinese"; "Grill"; "Pizza"; "South Indian"] ∧
    map label (rows (filtered_df (apply_filters "Any" value pune_state).2)) = [2; 4] ∧
    map label (List.filter (λ r, Spec.cuisine_matches value (cell_at 1 r)) (rows pune_df))
      = [4] ∧
    map label (List.filter (λ r, match cell_at 1 r with
                                 | Text x => Spec.contains value x
                                 | NaN => false
                                 end) (rows pune_df))
      = [4].
Proof.
  exists "Bar.B.Q". split; [reflexivity|]. split; [reflexivity|].
  split; [|repeat split]. apply list_elem_of_In. simpl. tauto.
Qed.

(** C6 fails as stated: with the cuisine ["Bar.B.Q"], the cuisine step
    keeps row 2 of the sample table, whose cuisines cell
    ["Bar-B-Q, Grill"] does not contain the value as a case-insensitive
    substring. *)
Lemma cuisine_filter_keeps_non_substring :
  let s := State (V := string) pune_df [] pune_df [] in
  get_loc "Cuisines" (columns pune_df) = Some 1 ∧
  map (λ r, (label r, cell_at 1 r)) (rows (filtered_df (filter_cuisine "Bar.B.Q" s).2))
    = [(2, Text "Bar-B-Q, Grill"); (4, Text "Bar.B.Q")] ∧
  Spec.cuisine_matches "Bar.B.Q" (Text "Bar-B-Q, Grill") = false.
Proof. repeat split. Qed.

(** ** The properties on the sample table *)

(** C3 on the sample: locality ["Koregaon Park"] seeds row 1, the index
    answers [1; 0; 2; 3; 4; 5], and the cards are those of rows 0, 2, 3, 4
    and 5 of the table, three of them outside the view. *)
Lemma recommendations_come_from_the_table_on_sample :
  let run := find_restaurants toy_transform (toy_kneighbors pune_texts)
               "Koregaon Park" "Any" pune_state in
  let q := "Pizza Point Pizza, Fast Food Koregaon Park" in
  run.1 = (Spec.cards_of pune_df [0; 2; 3; 4; 5]).2 ∧
  out run.2 =
    [] ++ [st_success 2; call_transform [q]; call_kneighbors (toy_transform q) 6;
           st_markdown recommendations_heading]
       ++ map st_markdown_card (Spec.cards_of pune_df [0; 2; 3; 4; 5]).1.
Proof.
  exact (recommendations_come_from_the_table toy_transform (toy_kneighbors pune_texts)
           "Koregaon Park" "Any" pune_state
           "Pizza Point Pizza, Fast Food Koregaon Park" [1; 0; 2; 3; 4; 5]
           eq_refl eq_refl eq_refl).
Defined.

(** C4 on the sample: no restaurant of Deccan serves pizza. *)
Lemma no_match_warns_without_query_on_sample :
  let run := find_restaurants toy_transform (toy_kneighbors pune_texts)
               "Deccan" "Pizza" pune_state in
  run.1 = Ok tt ∧
  out run.2 = [] ++ [st_warning no_match_warning] ∧
  ∀ q k, call_kneighbors q k ∉ drop 0 (out run.2).
Proof.
  exact (no_match_warns_without_query toy_transform (toy_kneighbors pune_texts)
           "Deccan" "Pizza" pune_state eq_refl eq_refl).
Defined.

(** C6, as amended, on the sample: ["pizza"] keeps rows 1 and 5, whose
    cuisines hold ["Pizza"]. *)
Lemma cuisine_filter_plain_value_on_sample :
  let s := State (V := string) pune_df [] pune_df [] in
  filter_cuisine "pizza" s =
    (Ok tt,
     State pune_df [] 
           (Frame (columns pune_df)
                  (List.filter (λ r, Spec.cuisine_matches "pizza" (cell_at 1 r))
                               (rows pune_df)))
           []) ∧
  map label (List.filter (λ r, Spec.cuisine_matches "pizza" (cell_at 1 r)) (rows pune_df))
    = [1; 5].
Proof.
  split; [|reflexivity].
  exact (cuisine_filter_plain_value (State (V := string) pune_df [] pune_df []) "pizza" 1
           ltac:(discriminate) eq_refl eq_refl).
Defined.

(** C8 on the sample. *)
Lemma matrix_rows_follow_table_rows_on_sample :
  let s := (startup toy_transform pune_disk initial).2 in
  length (tfidf_matrix s) = len (df s) ∧
  (∀ i r, iloc (df s) i = Ok r →
     ∃ n c l,
       field r "Restaurant_Name" = Ok (Text n) ∧ field r "Cuisines" = Ok (Text c) ∧
       field r "Locality" = Ok (Text l) ∧
       field r "combined_text" = Ok (Text (Str.join " " [n; c; l])) ∧
       tfidf_matrix s !! i = Some (toy_transform (Str.join " " [n; c; l]))) ∧
  (∀ selected_locality selected_cuisine,
     let s' := (find_restaurants toy_transform (toy_kneighbors pune_texts)
                  selected_locality selected_cuisine s).2 in
     df s' = df s ∧ tfidf_matrix s' = tfidf_matrix s).
Proof.
  exact (matrix_rows_follow_table_rows toy_transform (toy_kneighbors pune_texts)
           pune_disk (startup toy_transform pune_disk initial).2 eq_refl).
Defined.

(** The sample with a record whose cuisines are missing. *)
Lemma sample_built_by_line_52 : Spec.built_by_line_52 pune_csv_na pune_df_na.
Proof.
  split; [repeat constructor|].
  eexists _, _, _. repeat split; reflexivity.
Defined.

(** C10 on that sample: with both criteria at ["Any"] the seed is the row
    without cuisines. *)
Lemma missing_field_fails_seed_vectorization_on_sample :
  Spec.seed_query pune_df_na = Ok NaN ∧
  find_restaurants toy_transform (toy_kneighbors pune_texts) "Any" "Any" pune_state_na
    = (Raise ValueError, Spec.log (State pune_df_na [] pune_df_na []) [st_success 8]).
Proof.
  split; [reflexivity|].
  refine (proj2 (missing_field_fails_seed_vectorization
                   toy_transform (toy_kneighbors pune_texts)
                   pune_csv_na pune_state_na sample_built_by_line_52)
                "Any" "Any" _ eq_refl eq_refl _).
  right. left. reflexivity.
Defined.

(** ** Further properties *)

Lemma cards_of_all d idxs :
  Forall (λ i, ∃ c, Spec.card_of d i = Ok c) idxs →
  (Spec.cards_of d idxs).2 = Ok tt ∧
  Forall2 (λ i c, Spec.card_of d i = Ok c) idxs (Spec.cards_of d idxs).1.
Proof.
  induction 1 as [|i idxs [c Hc] _ [IH1 IH2]]; simpl.
  - split; [reflexivity|constructor].
  - rewrite Hc. destruct (Spec.cards_of d idxs) as [cs r]. simpl in *.
    split; [exact IH1|]. constructor; assumption.
Qed.

Lemma documents_missing cs : NaN ∈ cs → documents cs = Raise ValueError.
Proof.
  induction cs as [|[|x] cs IH]; simpl; intros Hin.
  - inversion Hin.
  - reflexivity.
  - rewrite IH; [reflexivity|].
    apply elem_of_cons in Hin as [Hin|Hin]; [discriminate|exact Hin].
Qed.

Lemma get_loc_columns_with_text d :
  ∃ jt, get_loc "combined_text" (Spec.columns_with_text d) = Some jt.
Proof.
  unfold Spec.columns_with_text.
  destruct (get_loc "combined_text" (columns d)) as [j|] eqn:Hj.
  - exists j. exact Hj.
  - exists (length (columns d)). apply get_loc_app_new, Hj.
Qed.

Section Further.

Context {V : Type}.
Variable transform : string → V.
Variable kneighbors : V → nat → result (list nat).
Implicit Types s : state (V := V).

(** When the index answers with six positions and a card can be built
    for each of the last five, the button ends normally after exactly
    five cards, one per position after the first, in the index's order. *)
Theorem five_cards_for_six_neighbours (selected_locality selected_cuisine : string)
    s (q : string) (idxs : list nat) :
  (apply_filters selected_locality selected_cuisine s).1 = Ok tt →
  Spec.seed_query (filtered_df (apply_filters selected_locality selected_cuisine s).2)
    = Ok (Text q) →
  kneighbors (transform q) 6 = Ok idxs →
  length idxs = 6 →
  Forall (λ i, ∃ c, Spec.card_of (df s) i = Ok c) (tail idxs) →
  let run := find_restaurants transform kneighbors selected_locality selected_cuisine s in
  run.1 = Ok tt ∧
  ∃ cards, length cards = 5 ∧
           drop (length (out s) + 4) (out run.2) = map st_markdown_card cards ∧
           Forall2 (λ i c, Spec.card_of (df s) i = Ok c) (tail idxs) cards.
Proof.
  intros Hf Hseed Hk Hlen Hall run.
  subst run.
  rewrite (find_restaurants_run _ _ _ _ _ Hf), (recommend_run _ _ _ q idxs Hseed Hk).
  destruct (apply_filters_narrows selected_locality selected_cuisine s)
    as (Hdf & _ & Hout & _ & _).
  rewrite Hdf. simpl. rewrite Hout.
  destruct (cards_of_all _ _ Hall) as [H1 H2].
  split; [exact H1|].
  exists (Spec.cards_of (df s) (tail idxs)).1. split; [|split].
  - apply Forall2_length in H2. rewrite <- H2.
    destruct idxs; simpl in *; lia.
  - rewrite drop_app_add. reflexivity.
  - exact H2.
Qed.

(** When the dataset and both artefacts are present but some row of the
    table lacks its name, cuisines or locality, the start-up itself ends
    at line 53: the batch transform refuses the missing combined text. *)
Theorem startup_refuses_missing_text fs header records d n c l i r :
  data_file fs = Some (header, records) →
  vectorizer_file fs = true → knn_model_file fs = true →
  read_csv header records = Ok d →
  getitem d "Restaurant_Name" = Ok n → getitem d "Cuisines" = Ok c →
  getitem d "Locality" = Ok l →
  iloc (setitem d "combined_text" (combined_text n c l)) i = Ok r →
  Spec.missing_text r →
  startup transform fs initial =
    (Raise ValueError,
     State (setitem d "combined_text" (combined_text n c l)) [] empty_frame []).
Proof.
  intros Hdata Hv Hk Hd Hn Hc Hl Hr Hm.
  assert (Hb : Spec.built_by_line_52 d (setitem d "combined_text" (combined_text n c l))).
  { split; [eapply read_csv_well_formed, Hd|]. exists n, c, l. repeat split; assumption. }
  pose proof (missing_text_combined _ _ _ _ Hb Hr Hm) as Hnan.
  destruct (getitem_get_loc _ _ _ Hn) as (jn & Hjn & _).
  destruct (getitem_get_loc _ _ _ Hc) as (jc & Hjc & _).
  destruct (getitem_get_loc _ _ _ Hl) as (jl & Hjl & _).
  pose proof (line_52 d jn jc jl n c l Hjn Hjc Hjl (conj Hn (conj Hc Hl))) as Htable.
  destruct (get_loc_columns_with_text d) as [jt Hjt].
  assert (Htexts : ∃ texts, getitem (setitem d "combined_text" (combined_text n c l))
                              "combined_text" = Ok texts ∧ NaN ∈ map snd texts).
  { rewrite Htable in Hr |- *. unfold getitem. simpl. rewrite Hjt.
    eexists. split; [reflexivity|]. rewrite map_map. simpl.
    apply iloc_record_of in Hr as (row & Hrow & ->). simpl in Hrow.
    unfold field, Spec.record_of in Hnan. simpl in Hnan.
    destruct (assoc _ _) as [v|] eqn:Hv'; [|discriminate]. injection Hnan as ->.
    apply (assoc_zip_inv _ _ _ jt) in Hv'; [|exact Hjt].
    apply list_elem_of_In, in_map_iff. exists row. split; [exact Hv'|].
    apply list_elem_of_In. eapply list_elem_of_lookup_2, Hrow. }
  destruct Htexts as (texts & Ht & Hin).
  destruct fs as [data vf kf]. simpl in *. subst data vf kf.
  unfold startup, load_data, load_models. simpl.
  unfold bind, lift, get_df, set_df. simpl. rewrite Hd. simpl.
  rewrite Hn, Hc, Hl, Ht.
  unfold vectorizer_transform, bind, lift. rewrite (documents_missing _ Hin). reflexivity.
Qed.

End Further.

(** The two further properties on the sample. *)
Lemma five_cards_for_six_neighbours_on_sample :
  let run := find_restaurants toy_transform (toy_kneighbors pune_texts)
               "Koregaon Park" "Any" pune_state in
  run.1 = Ok tt ∧
  ∃ cards, length cards = 5 ∧
           drop (0 + 4) (out run.2) = map st_markdown_card cards ∧
           Forall2 (λ i c, Spec.card_of pune_df i = Ok c) [0; 2; 3; 4; 5] cards.
Proof.
  refine (five_cards_for_six_neighbours toy_transform (toy_kneighbors pune_texts)
            "Koregaon Park" "Any" pune_state
            "Pizza Point Pizza, Fast Food Koregaon Park" [1; 0; 2; 3; 4; 5]
            eq_refl eq_refl eq_refl eq_refl _).
  repeat (constructor; [eexists; reflexivity|]). constructor.
Defined.

Lemma startup_refuses_missing_text_on_sample :
  startup toy_transform (Disk (Some (header, pune_records_na)) true true) initial
    = (Raise ValueError, State pune_df_na [] empty_frame []).
Proof.
  refine (startup_refuses_missing_text toy_transform
            (Disk (Some (header, pune_records_na)) true true)
            header pune_records_na pune_csv_na _ _ _ 0 _
            eq_refl eq_refl eq_refl eq_refl eq_refl eq_refl eq_refl eq_refl _).
  right. left. reflexivity.
Defined.

(** ** The options of the select boxes (lines 72-73) *)

Lemma append_cons c (s t : string) : String c s +:+ t = String c (s +:+ t).
Proof. reflexivity. Qed.

Lemma append_nil_r (s : string) : s +:+ "" = s.
Proof.
  induction s as [|c s IH]; [reflexivity|]. rewrite append_cons, IH. reflexivity.
Qed.

Lemma rev_app_append (s t : string) : String.rev_app s t = String.rev s +:+ t.
Proof.
  unfold String.rev. revert t. induction s as [|c s IH]; intros t; [reflexivity|].
  simpl. rewrite (IH (String c t)), (IH (String c "")), append_assoc. reflexivity.
Qed.

Lemma rev_cons c (s : string) : String.rev (String c s) = String.rev s +:+ String c "".
Proof. unfold String.rev at 1. simpl. apply rev_app_append. Qed.

(** Induction on strings, two characters at a time. *)
Lemma string_ind2 (P : string → Prop) :
  P "" → (∀ c, P (String c "")) →
  (∀ c d s, P s → P (String d s) → P (String c (String d s))) →
  ∀ s, P s.
Proof.
  intros H0 H1 H2 s.
  assert (H : P s ∧ ∀ c, P (String c s)); [|exact (proj1 H)].
  induction s as [|d s [IH1 IH2]]; split; auto.
Qed.

Lemma split_aux_cons2 c d s cur :
  Str.split_aux (String c (String d s)) cur =
    if Ascii.eqb c "," && Ascii.eqb d " "
    then String.rev cur :: Str.split_aux s ""
    else Str.split_aux (String d s) (String c cur).
Proof. reflexivity. Qed.

Lemma split_aux_nonempty s cur : Str.split_aux s cur ≠ [].
Proof.
  revert cur. induction s as [| c | c d s IH1 IH2] using string_ind2; intros cur;
    try discriminate.
  rewrite split_aux_cons2. destruct (_ && _); [discriminate|apply IH2].
Qed.

(** Splitting what was joined with [", "]: the separator that the join
    put in is always one the split finds. *)
Lemma split_aux_app p q cur :
  Str.split_aux (p +:+ ", " +:+ q) cur = Str.split_aux p cur ++ Str.split_aux q "".
Proof.
  revert cur. induction p as [| c | c d p IH1 IH2] using string_ind2; intros cur.
  - reflexivity.
  - change (String c "" +:+ ", " +:+ q) with (String c (String "," (String " " q))).
    rewrite split_aux_cons2. simpl (Ascii.eqb "," " "). rewrite andb_false_r.
    reflexivity.
  - rewrite !append_cons, !split_aux_cons2.
    destruct (_ && _).
    + rewrite IH1. reflexivity.
    + rewrite <- append_cons. apply IH2.
Qed.

Lemma join_cons sep p (l : list string) :
  l ≠ [] → Str.join sep (p :: l) = p +:+ sep +:+ Str.join sep l.
Proof. destruct l; [congruence|reflexivity]. Qed.

Lemma split_join (parts : list string) :
  parts ≠ [] →
  Str.split_comma_space (Str.join ", " parts) = concat (map Str.split_comma_space parts).
Proof.
  unfold Str.split_comma_space.
  induction parts as [|p parts IH]; [congruence|]. intros _.
  destruct parts as [|p' parts].
  - simpl. rewrite app_nil_r. reflexivity.
  - rewrite join_cons by discriminate. rewrite split_aux_app, IH by discriminate.
    reflexivity.
Qed.

(** Joining what was split gives the string back. *)
Lemma join_split_aux s cur :
  Str.join ", " (Str.split_aux s cur) = String.rev cur +:+ s.
Proof.
  revert cur. induction s as [| c | c d s IH1 IH2] using string_ind2; intros cur.
  - simpl. rewrite append_nil_r. reflexivity.
  - change (String.rev (String c cur) = String.rev cur +:+ String c "").
    apply rev_cons.
  - rewrite split_aux_cons2.
    destruct (Ascii.eqb c ",") eqn:Hc, (Ascii.eqb d " ") eqn:Hd; cbn [andb];
      try (rewrite IH2, rev_cons, append_assoc; reflexivity).
    apply Ascii.eqb_eq in Hc as ->, Hd as ->.
    rewrite join_cons by apply split_aux_nonempty. rewrite IH1. reflexivity.
Qed.

Lemma join_split (s : string) : Str.join ", " (Str.split_comma_space s) = s.
Proof. apply join_split_aux. Qed.

Lemma elem_of_join sep (l : list string) x :
  x ∈ l → ∃ pre post, Str.join sep l = pre +:+ x +:+ post.
Proof.
  induction l as [|p l IH]; intros Hin; [inversion Hin|].
  apply elem_of_cons in Hin as [->|Hin].
  - destruct l as [|p' l].
    + exists "", "". simpl. rewrite append_nil_r. reflexivity.
    + exists "", (sep +:+ Str.join sep (p' :: l)). reflexivity.
  - destruct (IH Hin) as (pre & post & Hj). destruct l as [|p' l]; [inversion Hin|].
    rewrite join_cons by discriminate. rewrite Hj.
    exists (p +:+ sep +:+ pre), post. rewrite !append_assoc. reflexivity.
Qed.

(** A piece of a split is a substring of what was split. *)
Lemma split_piece_substring s x :
  x ∈ Str.split_comma_space s → ∃ pre post, s = pre +:+ x +:+ post.
Proof.
  intros Hin. destruct (elem_of_join ", " _ _ Hin) as (pre & post & Hj).
  rewrite join_split in Hj. eauto.
Qed.

Lemma lt_trans a b c : Criteria.lt a b → Criteria.lt b c → Criteria.lt a c.
Proof.
  unfold Criteria.lt. intros H1 H2.
  apply OrderedTypeEx.String_as_OT.cmp_lt in H1, H2.
  apply OrderedTypeEx.String_as_OT.cmp_lt.
  eapply OrderedTypeEx.String_as_OT.lt_trans; eassumption.
Qed.

Lemma insert_sorted_elem x y l : y ∈ Str.insert_sorted x l ↔ y = x ∨ y ∈ l.
Proof.
  induction l as [|z l IH]; simpl.
  - rewrite elem_of_cons. reflexivity.
  - destruct (String.compare x z) eqn:Hc.
    + apply OrderedTypeEx.String_as_OT.cmp_eq in Hc as ->.
      rewrite elem_of_cons. tauto.
    + rewrite elem_of_cons. reflexivity.
    + rewrite !elem_of_cons, IH. tauto.
Qed.

Lemma insert_sorted_increasing x l :
  Criteria.increasing l → Criteria.increasing (Str.insert_sorted x l).
Proof.
  unfold Criteria.increasing.
  induction 1 as [|z l Hs IH Hz]; simpl.
  - repeat constructor.
  - destruct (String.compare x z) eqn:Hc.
    + constructor; assumption.
    + constructor; [constructor; assumption|].
      constructor; [exact Hc|].
      eapply Forall_impl; [exact Hz|]. intros w Hw. eapply lt_trans; eassumption.
    + constructor; [exact IH|].
      apply Forall_forall. intros w Hw. apply insert_sorted_elem in Hw as [->|Hw].
      * unfold Criteria.lt. rewrite String.compare_antisym, Hc. reflexivity.
      * rewrite Forall_forall in Hz. apply Hz, Hw.
Qed.

Lemma sorted_set_elem x xs : x ∈ Str.sorted_set xs ↔ x ∈ xs.
Proof.
  unfold Str.sorted_set. induction xs as [|y xs IH]; simpl; [reflexivity|].
  rewrite insert_sorted_elem, elem_of_cons, IH. reflexivity.
Qed.

Lemma sorted_set_increasing xs : Criteria.increasing (Str.sorted_set xs).
Proof.
  unfold Str.sorted_set. induction xs as [|y xs IH]; simpl.
  - constructor.
  - apply insert_sorted_increasing, IH.
Qed.

Lemma dropna_elem j (rs : list row) x :
  x ∈ dropna (map (λ r, (label r, cell_at j r)) rs) ↔
  ∃ r, r ∈ rs ∧ cell_at j r = Text x.
Proof.
  unfold dropna. rewrite list_elem_of_omap. split.
  - intros ([l c] & Hin & Hc). simpl in Hc.
    destruct c as [|y]; [discriminate|]. injection Hc as ->.
    apply list_elem_of_In, in_map_iff in Hin as (r & [= <- Hr] & Hin).
    exists r. split; [apply list_elem_of_In, Hin|exact Hr].
  - intros (r & Hin & Hr). exists (label r, cell_at j r). split.
    + apply list_elem_of_In, in_map_iff. exists r. split; [reflexivity|].
      apply list_elem_of_In, Hin.
    + simpl. rewrite Hr. reflexivity.
Qed.

Lemma dropna_all_missing j (rs : list row) :
  (∀ r, r ∈ rs → cell_at j r = NaN) →
  dropna (map (λ r, (label r, cell_at j r)) rs) = [].
Proof.
  intros Hall. destruct (dropna _) as [|x l] eqn:Hd; [reflexivity|].
  assert (Hin : x ∈ dropna (map (λ r, (label r, cell_at j r)) rs)).
  { rewrite Hd. left. }
  apply dropna_elem in Hin as (r & Hin & Hr). rewrite (Hall r Hin) in Hr. discriminate.
Qed.

(** X3.  The locality box offers ["Any"] and then, in strictly increasing
    order and so without repetition, exactly the localities that some row
    of the table has; rows without a locality add nothing. *)
Theorem locality_options_are_the_localities d (j : nat) :
  get_loc "Locality" (columns d) = Some j →
  ∃ options,
    locality_options d = Ok ("Any" :: options) ∧
    Criteria.increasing options ∧
    ∀ x, x ∈ options ↔ Criteria.has_locality d j x.
Proof.
  intros Hj. unfold locality_options, getitem. rewrite Hj. simpl.
  eexists. split; [reflexivity|]. split; [apply sorted_set_increasing|].
  intros x. rewrite sorted_set_elem. apply dropna_elem.
Qed.

(** X4.  When some row has cuisines, the cuisine box offers ["Any"] and
    then, in strictly increasing order, exactly the pieces that the
    cuisines of some row fall into when split at [", "]: joining all the
    fields before splitting neither merges nor cuts a piece. *)
Theorem cuisine_options_are_the_pieces d (j : nat) :
  get_loc "Cuisines" (columns d) = Some j →
  (∃ r x0, r ∈ rows d ∧ cell_at j r = Text x0) →
  ∃ options,
    cuisine_options d = Ok ("Any" :: options) ∧
    Criteria.increasing options ∧
    ∀ x, x ∈ options ↔ Criteria.has_cuisine d j x.
Proof.
  intros Hj (r0 & x0 & Hr0 & Hx0).
  unfold cuisine_options, getitem. rewrite Hj. simpl.
  eexists. split; [reflexivity|]. split; [apply sorted_set_increasing|].
  intros x. rewrite sorted_set_elem.
  assert (Hne : dropna (map (λ r, (label r, cell_at j r)) (rows d)) ≠ []).
  { intros Hnil. assert (Hin : x0 ∈ dropna (map (λ r, (label r, cell_at j r)) (rows d))).
    { apply dropna_elem. eauto. }
    rewrite Hnil in Hin. inversion Hin. }
  rewrite (split_join _ Hne). unfold Criteria.has_cuisine.
  rewrite list_elem_of_In, in_concat. split.
  - intros (pieces & Hp & Hx). apply in_map_iff in Hp as (y & <- & Hy).
    apply list_elem_of_In, dropna_elem in Hy as (r & Hr & Hy).
    exists r, y. repeat split; try assumption. apply list_elem_of_In, Hx.
  - intros (r & y & Hr & Hy & Hx). exists (Str.split_comma_space y). split.
    + apply in_map_iff. exists y. split; [reflexivity|].
      apply list_elem_of_In, dropna_elem. eauto.
    + apply list_elem_of_In, Hx.
Qed.

(** X5.  When no row has cuisines, the cuisine box still offers a second
    choice besides ["Any"]: the empty string, left by splitting the empty
    join. *)
Theorem cuisine_options_without_cuisines d (j : nat) :
  get_loc "Cuisines" (columns d) = Some j →
  (∀ r, r ∈ rows d → cell_at j r = NaN) →
  cuisine_options d = Ok ["Any"; ""].
Proof.
  intros Hj Hall. unfold cuisine_options, getitem. rewrite Hj. simpl.
  rewrite (dropna_all_missing j _ Hall). reflexivity.
Qed.

(** ** The two criteria together (lines 82-88) *)

Lemma frame_eta (f : DataFrame) : Frame (columns f) (rows f) = f.
Proof. destruct f; reflexivity. Qed.

Lemma filter_true {A} (l : list A) : List.filter (λ _, true) l = l.
Proof. induction l as [|x l IH]; simpl; [reflexivity|]. rewrite IH. reflexivity. Qed.

Lemma filter_filter {A} (f g : A → bool) (l : list A) :
  List.filter g (List.filter f l) = List.filter (λ x, f x && g x) l.
Proof.
  induction l as [|x l IH]; simpl; [reflexivity|].
  destruct (f x); simpl; [destruct (g x)|]; rewrite IH; reflexivity.
Qed.

Lemma match_here_self pat re post :
  Re.compile_atoms pat = Some re → Re.match_here re (pat +:+ post) = true.
Proof.
  revert re. induction pat as [|c pat IH]; simpl; intros re.
  - intros [= <-]. reflexivity.
  - destruct (Ascii.eqb_spec c ".") as [->|_].
    + destruct (Re.compile_atoms pat) as [re'|]; [|discriminate].
      intros [= <-]. rewrite append_cons. simpl. apply IH. reflexivity.
    + destruct (Re.is_special c); [discriminate|].
      destruct (Re.compile_atoms pat) as [re'|]; [|discriminate].
      intros [= <-]. rewrite append_cons. simpl.
      rewrite Ascii.eqb_refl. apply IH. reflexivity.
Qed.

Lemma search_substring re pre rest :
  Re.match_here re rest = true → Re.search re (pre +:+ rest) = true.
Proof.
  intros Hm. induction pre as [|c pre IH].
  - destruct rest; simpl in *; rewrite Hm; reflexivity.
  - rewrite append_cons. simpl. rewrite IH. apply orb_true_r.
Qed.

Section CriteriaProperties.

Context {V : Type}.
Implicit Types s : state (V := V).

Lemma filter_locality_run selected s j :
  get_loc "Locality" (columns (filtered_df s)) = Some j →
  filter_locality selected s =
    (Ok tt,
     State (df s) (tfidf_matrix s)
           (Frame (columns (filtered_df s))
                  (List.filter (λ r, Criteria.locality_ok selected (cell_at j r))
                               (rows (filtered_df s))))
           (out s)).
Proof.
  intros Hj. unfold filter_locality, Criteria.locality_ok.
  destruct (String.eqb selected "Any"); simpl.
  - rewrite filter_true, frame_eta. destruct s; reflexivity.
  - unfold bind, get_filtered_df, lift, set_filtered_df, getitem. rewrite Hj. simpl.
    unfold boolean_index, eq_str. rewrite map_map. simpl.
    rewrite (select_rows_filter
               (λ c, match c with Text x => String.eqb x selected | NaN => false end)
               (cell_at j)).
    reflexivity.
Qed.

Lemma filter_cuisine_compiled selected re s j :
  Re.compile_atoms selected = Some re →
  get_loc "Cuisines" (columns (filtered_df s)) = Some j →
  filter_cuisine selected s =
    (Ok tt,
     State (df s) (tfidf_matrix s)
           (Frame (columns (filtered_df s))
                  (List.filter (λ r, String.eqb selected "Any"
                                     || contains_cell re (cell_at j r))
                               (rows (filtered_df s))))
           (out s)).
Proof.
  intros Hre Hj. unfold filter_cuisine.
  destruct (String.eqb selected "Any"); simpl.
  - rewrite filter_true, frame_eta. destruct s; reflexivity.
  - unfold bind, get_filtered_df, lift, set_filtered_df, getitem. rewrite Hj. simpl.
    unfold str_contains, Re.compile. rewrite Hre. simpl.
    unfold boolean_index. rewrite map_map. simpl.
    rewrite (select_rows_filter (contains_cell re) (cell_at j)). reflexivity.
Qed.

Lemma apply_filters_compiled selected_locality selected_cuisine re s jl jc :
  get_loc "Locality" (columns (df s)) = Some jl →
  get_loc "Cuisines" (columns (df s)) = Some jc →
  Re.compile_atoms selected_cuisine = Some re →
  apply_filters selected_locality selected_cuisine s =
    (Ok tt,
     State (df s) (tfidf_matrix s)
           (Frame (columns (df s))
                  (List.filter
                     (λ r, Criteria.locality_ok selected_locality (cell_at jl r)
                           && (String.eqb selected_cuisine "Any"
                               || contains_cell re (cell_at jc r)))
                     (rows (df s))))
           (out s)).
Proof.
  intros Hl Hc Hre. unfold apply_filters.
  unfold bind at 1. unfold get_df. unfold bind at 1. unfold set_filtered_df, copy.
  unfold bind. rewrite (filter_locality_run _ _ jl) by exact Hl. simpl.
  rewrite (filter_cuisine_compiled _ re _ jc) by assumption. simpl.
  rewrite filter_filter. reflexivity.
Qed.

(** X6.  On a table that has both columns, and for a cuisine without
    special characters, the two steps of the filter together keep exactly
    the rows that pass both criteria, in the order of the table: the
    locality equal to the selected one, character for character, and the
    cuisines containing the selected one whatever the case, each
    criterion passing every row when it is ["Any"] and no row without the
    field otherwise. *)
Theorem view_is_the_rows_passing_both_criteria
    (selected_locality selected_cuisine : string) s (jl jc : nat) :
  get_loc "Locality" (columns (df s)) = Some jl →
  get_loc "Cuisines" (columns (df s)) = Some jc →
  Re.has_special selected_cuisine = false →
  apply_filters selected_locality selected_cuisine s =
    (Ok tt,
     State (df s) (tfidf_matrix s)
           (Frame (columns (df s))
                  (List.filter
                     (λ r, Criteria.locality_ok selected_locality (cell_at jl r)
                           && Criteria.cuisine_ok selected_cuisine (cell_at jc r))
                     (rows (df s))))
           (out s)).
Proof.
  intros Hl Hc Hplain.
  destruct (compile_plain _ Hplain) as (re & Hre & Hm).
  rewrite (apply_filters_compiled _ _ re _ jl jc Hl Hc Hre).
  do 3 f_equal. apply filter_ext. intros r. f_equal.
  unfold Criteria.cuisine_ok, contains_cell, Spec.cuisine_matches. f_equal.
  destruct (cell_at jc r); [reflexivity|]. apply search_plain, Hm.
Qed.

Lemma apply_filters_locality_only selected_locality s jl :
  get_loc "Locality" (columns (df s)) = Some jl →
  apply_filters selected_locality "Any" s =
    (Ok tt,
     State (df s) (tfidf_matrix s)
           (Frame (columns (df s))
                  (List.filter (λ r, Criteria.locality_ok selected_locality (cell_at jl r))
                               (rows (df s))))
           (out s)).
Proof.
  intros Hl. unfold apply_filters.
  unfold bind at 1. unfold get_df. unfold bind at 1. unfold set_filtered_df, copy.
  unfold bind. rewrite (filter_locality_run _ _ jl) by exact Hl. reflexivity.
Qed.

Lemma apply_filters_cuisine_only selected_cuisine re s jc :
  get_loc "Cuisines" (columns (df s)) = Some jc →
  Re.compile_atoms selected_cuisine = Some re →
  apply_filters "Any" selected_cuisine s =
    (Ok tt,
     State (df s) (tfidf_matrix s)
           (Frame (columns (df s))
                  (List.filter (λ r, String.eqb selected_cuisine "Any"
                                     || contains_cell re (cell_at jc r))
                               (rows (df s))))
           (out s)).
Proof.
  intros Hc Hre. unfold apply_filters.
  unfold bind at 1. unfold get_df. unfold bind at 1. unfold set_filtered_df, copy.
  unfold bind. simpl.
  rewrite (filter_cuisine_compiled _ re _ jc) by assumption. reflexivity.
Qed.

Lemma non_empty_view cols (rs : list row) (p : row → bool) c j r :
  get_loc c cols = Some j → r ∈ rs → p r = true →
  empty (Frame cols (List.filter p rs)) = false.
Proof.
  intros Hc Hin Hp. unfold empty. simpl.
  destruct cols as [|c0 cols]; [discriminate|].
  destruct (List.filter p rs) as [|r0 l] eqn:Hf; [|reflexivity].
  assert (H : In r (List.filter p rs)).
  { apply filter_In. split; [apply list_elem_of_In, Hin|exact Hp]. }
  rewrite Hf in H. destruct H.
Qed.

(** X7.  Whatever locality the box offers, selecting it with the cuisine
    at ["Any"] on a table that has rows finds at least one restaurant:
    the filter succeeds and the view is not empty, so the no-match
    warning is not shown. *)
Theorem offered_locality_finds_a_restaurant s (jl : nat) options (x : string) :
  get_loc "Locality" (columns (df s)) = Some jl →
  rows (df s) ≠ [] →
  locality_options (df s) = Ok options →
  x ∈ options →
  (apply_filters x "Any" s).1 = Ok tt ∧
  empty (filtered_df (apply_filters x "Any" s).2) = false.
Proof.
  intros Hl Hrows Hopt Hx.
  rewrite (apply_filters_locality_only x s jl Hl).
  simpl. split; [reflexivity|].
  unfold locality_options, getitem in Hopt. rewrite Hl in Hopt. simpl in Hopt.
  injection Hopt as <-.
  apply elem_of_cons in Hx as [->|Hx].
  - destruct (rows (df s)) as [|r0 rs] eqn:Hr; [congruence|].
    apply (non_empty_view _ _ _ "Locality" jl r0); [exact Hl|left|reflexivity].
  - apply (proj1 (sorted_set_elem _ _)), dropna_elem in Hx as (r & Hin & Hr).
    apply (non_empty_view _ _ _ "Locality" jl r); [exact Hl|exact Hin|].
    unfold Criteria.locality_ok. rewrite Hr, String.eqb_refl, orb_true_r. reflexivity.
Qed.

(** X8.  When some row has cuisines, whatever cuisine the box offers that
    lies in the embedded fragment of [re] (ordinary characters and
    ["."]), selecting it with the locality at ["Any"] finds at least one
    restaurant: the row it was split from matches it. *)
Theorem offered_cuisine_finds_a_restaurant s (jc : nat) options (x : string) re :
  get_loc "Cuisines" (columns (df s)) = Some jc →
  (∃ r x0, r ∈ rows (df s) ∧ cell_at jc r = Text x0) →
  cuisine_options (df s) = Ok options →
  x ∈ options →
  Re.compile x = Ok re →
  (apply_filters "Any" x s).1 = Ok tt ∧
  empty (filtered_df (apply_filters "Any" x s).2) = false.
Proof.
  intros Hc (r0 & x0 & Hr0 & Hx0) Hopt Hx Hre.
  unfold Re.compile in Hre.
  destruct (Re.compile_atoms x) as [re'|] eqn:Hre'; [|discriminate].
  injection Hre as ->.
  rewrite (apply_filters_cuisine_only x re s jc Hc Hre').
  simpl. split; [reflexivity|].
  unfold cuisine_options, getitem in Hopt. rewrite Hc in Hopt. simpl in Hopt.
  injection Hopt as <-.
  destruct (String.eqb_spec x "Any") as [->|Hany].
  - apply (non_empty_view _ _ _ "Cuisines" jc r0); [exact Hc|exact Hr0|reflexivity].
  - apply elem_of_cons in Hx as [->|Hx]; [congruence|].
    apply (proj1 (sorted_set_elem _ _)) in Hx.
    assert (Hne : dropna (map (λ r, (label r, cell_at jc r)) (rows (df s))) ≠ []).
    { intros Hnil.
      assert (Hin : x0 ∈ dropna (map (λ r, (label r, cell_at jc r)) (rows (df s)))).
      { apply dropna_elem. eauto. }
      rewrite Hnil in Hin. inversion Hin. }
    rewrite (split_join _ Hne) in Hx.
    apply list_elem_of_In, in_concat in Hx as (pieces & Hp & Hx).
    apply in_map_iff in Hp as (y & <- & Hy).
    apply list_elem_of_In, dropna_elem in Hy as (r & Hr & Hy).
    apply list_elem_of_In, split_piece_substring in Hx as (pre & post & ->).
    apply (non_empty_view _ _ _ "Cuisines" jc r); [exact Hc|exact Hr|].
    rewrite Hy. simpl.
    apply search_substring, match_here_self, Hre'.
Qed.

End CriteriaProperties.

(** ** A whole run (lines 49-53, 72-79 and 114-115) *)



Lemma built_rows d table :
  Spec.built_by_line_52 d table →
  ∃ jn jc jl,
    get_loc "Restaurant_Name" (columns d) = Some jn ∧
    get_loc "Cuisines" (columns d) = Some jc ∧
    get_loc "Locality" (columns d) = Some jl ∧
    table = Frame (Spec.columns_with_text d)
                  (map (λ r, Spec.put_text d (Spec.text_of_row jn jc jl r) r) (rows d)).
Proof.
  intros (_ & n & c & l & Hn & Hc & Hl & ->).
  destruct (getitem_get_loc _ _ _ Hn) as (jn & Hjn & _).
  destruct (getitem_get_loc _ _ _ Hc) as (jc & Hjc & _).
  destruct (getitem_get_loc _ _ _ Hl) as (jl & Hjl & _).
  exists jn, jc, jl. repeat split; try assumption.
  apply line_52; auto.
Qed.

Lemma get_loc_with_text d c j :
  get_loc c (columns d) = Some j → get_loc c (Spec.columns_with_text d) = Some j.
Proof.
  unfold Spec.columns_with_text. destruct (get_loc "combined_text" (columns d)); [trivial|].
  apply get_loc_app_l.
Qed.

Lemma selectbox_elem options choice : options ≠ [] → selectbox options choice ∈ options.
Proof.
  intros Hne. unfold selectbox. destruct options as [|o options]; [congruence|].
  destruct (decide (choice < length (o :: options))) as [Hlt|Hge].
  - apply list_elem_of_In, nth_In, Hlt.
  - rewrite nth_overflow by lia. left.
Qed.

Section WholeRun.

Context {V : Type}.
Variable transform : string → V.
Variable kneighbors : V → nat → result (list nat).
Implicit Types s : state (V := V).

(** What a successful run of lines 49-53 read and built. *)
Lemma startup_table fs s :
  startup transform fs initial = (Ok tt, s) →
  ∃ header records d,
    data_file fs = Some (header, records) ∧
    read_csv header records = Ok d ∧
    Spec.built_by_line_52 d (df s).
Proof.
  destruct fs as [[[header records]|] vf kf]; unfold startup, load_data, load_models; simpl.
  - unfold bind at 1. unfold lift at 1.
    destruct (read_csv header records) as [d|] eqn:Hd; simpl; [|discriminate].
    destruct vf, kf; simpl; try discriminate.
    unfold bind, lift, get_df, set_df. simpl.
    destruct (getitem d "Restaurant_Name") as [n|] eqn:Hn; [|discriminate].
    destruct (getitem d "Cuisines") as [c|] eqn:Hc; [|discriminate].
    destruct (getitem d "Locality") as [l|] eqn:Hl; [|discriminate].
    destruct (getitem (setitem _ _ _) _) as [texts|] eqn:Ht; [|discriminate].
    unfold vectorizer_transform, bind, lift, emit, ret, set_tfidf_matrix. simpl.
    destruct (documents (map snd texts)) as [xs|] eqn:Hx; simpl; [|discriminate].
    intros [= <-]. simpl. exists header, records, d.
    repeat split; try assumption.
    + eapply read_csv_well_formed, Hd.
    + exists n, c, l. repeat split; assumption.
  - destruct vf, kf; simpl; discriminate.
Qed.



Lemma options_after_startup fs s :
  startup transform fs initial = (Ok tt, s) →
  ∃ localities cuisines,
    locality_options (df s) = Ok ("Any" :: localities) ∧
    cuisine_options (df s) = Ok ("Any" :: cuisines).
Proof.
  intros Hstart.
  destruct (startup_table _ _ Hstart) as (header & records & d & _ & _ & Hb).
  destruct (built_rows _ _ Hb) as (jn & jc & jl & _ & Hjc & Hjl & Ht).
  unfold locality_options, cuisine_options, getitem. rewrite Ht. simpl.
  rewrite (get_loc_with_text _ _ _ Hjc), (get_loc_with_text _ _ _ Hjl). simpl.
  eexists _, _. split; reflexivity.
Qed.

(** X10.  After a successful start-up both select boxes can be built,
    the value read from each is one of the options it offers, and the
    rest of the run is the button's alone: pressed, the handler runs on
    the two selected values; not pressed, the page shows the hint and
    nothing else, with no call to the vectorizer or the index. *)
Theorem run_after_startup fs (ui : sidebar_input) s :
  startup transform fs initial = (Ok tt, s) →
  ∃ localities cuisines,
    locality_options (df s) = Ok localities ∧
    cuisine_options (df s) = Ok cuisines ∧
    selectbox localities (locality_choice ui) ∈ localities ∧
    selectbox cuisines (cuisine_choice ui) ∈ cuisines ∧
    main transform kneighbors fs ui initial =
      if button ui
      then find_restaurants transform kneighbors
             (selectbox localities (locality_choice ui))
             (selectbox cuisines (cuisine_choice ui)) s
      else (Ok tt, Spec.log s [st_info sidebar_hint]).
Proof.
  intros Hstart.
  destruct (options_after_startup _ _ Hstart) as (ls & cs & Hl & Hc).
  exists ("Any" :: ls), ("Any" :: cs).
  split; [exact Hl|]. split; [exact Hc|].
  split; [apply selectbox_elem; discriminate|].
  split; [apply selectbox_elem; discriminate|].
  unfold main. unfold bind at 1. rewrite Hstart.
  unfold sidebar, bind, get_df, lift, ret. rewrite Hl, Hc. simpl.
  destruct (button ui); reflexivity.
Qed.

(** X11.  When the dataset could be loaded, or was reported missing, and
    one of the two model files does not exist, the run ends at line 50
    with [FileNotFoundError], for the vectorizer when both are missing:
    the table is the one [load_data] returned, without a combined text,
    and the page shows nothing but what [load_data] put there. *)
Theorem missing_model_file_stops_the_run fs (ui : sidebar_input) d s1 :
  load_data fs initial = (Ok d, s1) →
  vectorizer_file fs && knn_model_file fs = false →
  main transform kneighbors fs ui initial =
    (Raise (FileNotFoundError (if vectorizer_file fs then "KNN model not found"
                               else "TF-IDF vectorizer not found")),
     State d [] empty_frame (out s1)).
Proof.
  intros Hload Hfile.
  unfold main, startup. unfold bind at 1. unfold bind at 1. unfold bind at 1.
  rewrite Hload.
  assert (Hs1 : tfidf_matrix s1 = [] ∧ filtered_df s1 = empty_frame).
  { unfold load_data in Hload. destruct (data_file fs) as [[h r]|].
    - unfold lift in Hload. injection Hload as _ <-. split; reflexivity.
    - injection Hload as _ <-. split; reflexivity. }
  destruct Hs1 as [Hm Hf].
  unfold set_df, bind, load_models. simpl. rewrite Hm, Hf.
  destruct (vectorizer_file fs); simpl in *; [rewrite Hfile|]; reflexivity.
Qed.

End WholeRun.

(** ** The cards (lines 101-113) *)

Lemma field_record_of cols r c j :
  get_loc c cols = Some j → length (cells r) = length cols →
  field (Spec.record_of cols r) c = Ok (cell_at j r).
Proof.
  intros Hj Hlen. unfold field, Spec.record_of. simpl.
  rewrite (assoc_zip _ _ _ j Hj); [reflexivity|].
  pose proof (get_loc_lt _ _ _ Hj). lia.
Qed.

Lemma all_chars_app p (a b : string) :
  Criteria.all_chars p (a +:+ b) = Criteria.all_chars p a && Criteria.all_chars p b.
Proof.
  induction a as [|c a IH]; [reflexivity|].
  rewrite append_cons. simpl. rewrite IH, andb_assoc. reflexivity.
Qed.

Lemma percent_url_safe c : Criteria.all_chars Criteria.url_safe (Urllib.percent c) = true.
Proof. destruct c as [[] [] [] [] [] [] [] []]; reflexivity. Qed.

Lemma quote_plus_url_safe s :
  Criteria.all_chars Criteria.url_safe (Urllib.quote_plus_str s) = true.
Proof.
  induction s as [|c s IH]; [reflexivity|]. simpl.
  destruct (Urllib.always_safe c) eqn:Hc.
  - simpl. unfold Criteria.url_safe at 1. rewrite Hc, IH. reflexivity.
  - destruct (Ascii.eqb c " ").
    + simpl. rewrite IH. reflexivity.
    + rewrite all_chars_app, percent_url_safe, IH. reflexivity.
Qed.

(** The card of a position, on a well-formed table that has the five
    displayed columns. *)
Lemma card_of_at d (i ja jn jc jr jv : nat) :
  Spec.well_formed d →
  get_loc "Detail_address" (columns d) = Some ja →
  get_loc "Restaurant_Name" (columns d) = Some jn →
  get_loc "Cuisines" (columns d) = Some jc →
  get_loc "Ratings_out_of_5" (columns d) = Some jr →
  get_loc "Number of votes" (columns d) = Some jv →
  Spec.card_of d i =
    match rows d !! i with
    | None => Raise IndexError
    | Some r =>
        match cell_at ja r with
        | NaN => Raise TypeError
        | Text address =>
            Ok (Card (fmt (cell_at jn r)) address (fmt (cell_at jc r))
                     (fmt (cell_at jr r)) (fmt (cell_at jv r))
                     (maps_prefix +:+ Urllib.quote_plus_str address))
        end
    end.
Proof.
  intros Hwf Ha Hn Hc Hr Hv. unfold Spec.card_of, iloc.
  destruct (rows d !! i) as [r|] eqn:Hrow; [|reflexivity]. simpl.
  assert (Hlen : length (cells r) = length (columns d)).
  { eapply (proj1 (Forall_lookup _ _) Hwf); eassumption. }
  fold (Spec.record_of (columns d) r).
  rewrite !(field_record_of _ _ _ _ Ha Hlen). simpl.
  destruct (cell_at ja r) as [|address]; [reflexivity|]. simpl.
  rewrite (field_record_of _ _ _ _ Hn Hlen), (field_record_of _ _ _ _ Hc Hlen),
    (field_record_of _ _ _ _ Hr Hlen), (field_record_of _ _ _ _ Hv Hlen).
  reflexivity.
Qed.

Lemma card_of_link d (i : nat) c :
  Spec.card_of d i = Ok c →
  ∃ quoted, card_maps_url c = maps_prefix +:+ quoted ∧
            Criteria.all_chars Criteria.url_safe quoted = true.
Proof.
  unfold Spec.card_of.
  destruct (iloc d i) as [r|]; simpl; [|discriminate].
  destruct (field r "Detail_address") as [[|address]|]; simpl; try discriminate.
  repeat (match goal with
          | |- context [field r ?col] => destruct (field r col); simpl; [|discriminate]
          end).
  intros [= <-]. simpl. eexists. split; [reflexivity|]. apply quote_plus_url_safe.
Qed.

Lemma cards_of_stop d pre i post e :
  Forall (λ k, ∃ c, Spec.card_of d k = Ok c) pre →
  Spec.card_of d i = Raise e →
  (Spec.cards_of d (pre ++ i :: post)).2 = Raise e ∧
  Forall2 (λ k c, Spec.card_of d k = Ok c) pre (Spec.cards_of d (pre ++ i :: post)).1.
Proof.
  intros Hpre Hi. induction Hpre as [|k pre [c Hc] _ [IH1 IH2]]; simpl.
  - rewrite Hi. split; [reflexivity|constructor].
  - rewrite Hc. destruct (Spec.cards_of d (pre ++ i :: post)) as [cs r]. simpl in *.
    split; [exact IH1|]. constructor; assumption.
Qed.

Section Cards.

Context {V : Type}.
Variable transform : string → V.
Variable kneighbors : V → nat → result (list nat).
Implicit Types s : state (V := V).

(** X12.  On a well-formed table that has the five displayed columns,
    line 102-113 show a card for a position exactly when the position
    lies within the table and the row there has an address: beyond the
    table they end in [IndexError], on a missing address in [TypeError],
    and otherwise the card shows the row's own five values, a missing
    one as ["nan"], with a map link that is the fixed prefix followed by
    the quoted address.  A failure leaves the page as it was. *)
Theorem show_card_at_position s (i ja jn jc jr jv : nat) :
  Spec.well_formed (df s) →
  get_loc "Detail_address" (columns (df s)) = Some ja →
  get_loc "Restaurant_Name" (columns (df s)) = Some jn →
  get_loc "Cuisines" (columns (df s)) = Some jc →
  get_loc "Ratings_out_of_5" (columns (df s)) = Some jr →
  get_loc "Number of votes" (columns (df s)) = Some jv →
  show_card i s =
    match rows (df s) !! i with
    | None => (Raise IndexError, s)
    | Some r =>
        match cell_at ja r with
        | NaN => (Raise TypeError, s)
        | Text address =>
            (Ok tt,
             Spec.log s
               [st_markdown_card
                  (Card (fmt (cell_at jn r)) address (fmt (cell_at jc r))
                        (fmt (cell_at jr r)) (fmt (cell_at jv r))
                        (maps_prefix +:+ Urllib.quote_plus_str address))])
        end
    end.
Proof.
  intros Hwf Ha Hn Hc Hr Hv.
  rewrite show_card_run, (card_of_at _ i ja jn jc jr jv Hwf Ha Hn Hc Hr Hv).
  destruct (rows (df s) !! i) as [r|]; [|reflexivity].
  destruct (cell_at ja r); reflexivity.
Qed.

(** X13.  Whenever lines 102-113 show a card, its map link is the fixed
    search prefix followed only by characters that need no escaping in
    a query string: letters, digits, [_.-~], ["+"] and ["%"]. *)
Theorem card_link_is_escaped s (i : nat) s' :
  show_card i s = (Ok tt, s') →
  ∃ c quoted,
    s' = Spec.log s [st_markdown_card c] ∧
    card_maps_url c = maps_prefix +:+ quoted ∧
    Criteria.all_chars Criteria.url_safe quoted = true.
Proof.
  rewrite show_card_run.
  destruct (Spec.card_of (df s) i) as [c|] eqn:Hc; [|discriminate].
  intros [= <-]. destruct (card_of_link _ _ _ Hc) as (quoted & Hq & Hsafe).
  exists c, quoted. repeat split; assumption.
Qed.

(** X14.  The cards are shown one by one and the first that cannot be
    built ends the run with its exception: the cards of the positions
    before it stay on the page and none of the positions after it is
    tried. *)
Theorem cards_stop_at_the_first_failure (selected_locality selected_cuisine : string)
    s (q : string) (idxs pre post : list nat) (i : nat) (e : exn) :
  (apply_filters selected_locality selected_cuisine s).1 = Ok tt →
  Spec.seed_query (filtered_df (apply_filters selected_locality selected_cuisine s).2)
    = Ok (Text q) →
  kneighbors (transform q) 6 = Ok idxs →
  tail idxs = pre ++ i :: post →
  Forall (λ k, ∃ c, Spec.card_of (df s) k = Ok c) pre →
  Spec.card_of (df s) i = Raise e →
  let run := find_restaurants transform kneighbors selected_locality selected_cuisine s in
  run.1 = Raise e ∧
  ∃ cards, Forall2 (λ k c, Spec.card_of (df s) k = Ok c) pre cards ∧
           drop (length (out s) + 4) (out run.2) = map st_markdown_card cards.
Proof.
  intros Hf Hseed Hk Htail Hpre Hi run. subst run.
  rewrite (find_restaurants_run _ _ _ _ _ Hf), (recommend_run _ _ _ q idxs Hseed Hk).
  destruct (apply_filters_narrows selected_locality selected_cuisine s)
    as (Hdf & _ & Hout & _ & _).
  rewrite Hdf, Htail. simpl. rewrite Hout.
  destruct (cards_of_stop _ _ _ post _ Hpre Hi) as [H1 H2].
  split; [exact H1|].
  exists (Spec.cards_of (df s) (pre ++ i :: post)).1. split; [exact H2|].
  rewrite drop_app_add. reflexivity.
Qed.

(** X15.  When the index refuses the query, as it does when it was fitted
    on fewer rows than the six asked for, the run ends with the index's
    exception after the count of matches: neither the heading nor any
    card is shown. *)
Theorem index_failure_ends_the_run (selected_locality selected_cuisine : string)
    s (q : string) (e : exn) :
  (apply_filters selected_locality selected_cuisine s).1 = Ok tt →
  Spec.seed_query (filtered_df (apply_filters selected_locality selected_cuisine s).2)
    = Ok (Text q) →
  kneighbors (transform q) 6 = Raise e →
  let filtered := (apply_filters selected_locality selected_cuisine s).2 in
  find_restaurants transform kneighbors selected_locality selected_cuisine s =
    (Raise e,
     Spec.log filtered [st_success (len (filtered_df filtered)); call_transform [q];
                        call_kneighbors (transform q) 6]).
Proof.
  intros Hf Hseed Hk filtered. subst filtered.
  rewrite (find_restaurants_run _ _ _ _ _ Hf).
  set (s1 := (apply_filters selected_locality selected_cuisine s).2) in *.
  unfold recommend. unfold bind at 1. unfold get_filtered_df.
  rewrite (seed_query_not_empty _ _ Hseed).
  unfold Spec.seed_query in Hseed.
  unfold bind, emit, lift. simpl.
  destruct (iloc (filtered_df s1) 0) as [seed|]; simpl in *; [|discriminate].
  rewrite Hseed. simpl. rewrite Hk. simpl.
  unfold Spec.log. simpl. rewrite <- !app_assoc. reflexivity.
Qed.

End Cards.

(** ** The banner (lines 56-62) *)

Lemma typewriter_loop_length text full :
  length (typewriter_loop text full) = String.length text.
Proof.
  revert full. induction text as [|c text IH]; intros full; simpl; [reflexivity|].
  rewrite IH. reflexivity.
Qed.

Lemma typewriter_loop_lookup text full i :
  i < String.length text →
  typewriter_loop text full !! i = Some ("## " +:+ full +:+ substring 0 (S i) text).
Proof.
  revert full i. induction text as [|c text IH]; intros full i Hi; simpl in Hi; [lia|].
  destruct i as [|i].
  - simpl. destruct text; reflexivity.
  - simpl typewriter_loop. change ((?x :: ?l) !! S i) with (l !! i).
    rewrite IH by lia.
    change (substring 0 (S (S i)) (String c text))
      with (String c (substring 0 (S i) text)).
    rewrite append_assoc. reflexivity.
Qed.

Lemma substring_all (s : string) : substring 0 (String.length s) s = s.
Proof.
  induction s as [|c s IH]; [reflexivity|].
  change (String c (substring 0 (String.length s) s) = String c s). rewrite IH. reflexivity.
Qed.

(** X16.  The banner writes its placeholder once per character of the
    text: the write number [i] shows the heading mark and the first [i+1]
    characters, so a text of [n] characters takes [n] writes, the last of
    which shows the whole text, and an empty text writes nothing. *)
Theorem typewriter_writes_every_prefix (text : string) :
  length (typewriter_effect text) = String.length text ∧
  (∀ i, i < String.length text →
        typewriter_effect text !! i = Some ("## " +:+ substring 0 (S i) text)) ∧
  last (typewriter_effect text) =
    match text with
    | EmptyString => None
    | String _ _ => Some ("## " +:+ text)
    end.
Proof.
  unfold typewriter_effect. split; [apply typewriter_loop_length|]. split.
  - intros i Hi. rewrite typewriter_loop_lookup by exact Hi. reflexivity.
  - destruct text as [|c text]; [reflexivity|].
    rewrite last_lookup, typewriter_loop_length.
    change (Init.Nat.pred (String.length (String c text))) with (String.length text).
    rewrite typewriter_loop_lookup by (simpl; lia).
    change (S (String.length text)) with (String.length (String c text)).
    rewrite substring_all. reflexivity.
Qed.

(** ** The further properties on the sample tables *)

(** X3 on the sample: the localities are in column 2. *)
Lemma locality_options_are_the_localities_on_sample :
  ∃ options,
    locality_options pune_df = Ok ("Any" :: options) ∧
    Criteria.increasing options ∧
    ∀ x, x ∈ options ↔ Criteria.has_locality pune_df 2 x.
Proof. exact (locality_options_are_the_localities pune_df 2 eq_refl). Defined.

Lemma sample_has_cuisines : ∃ r x0, r ∈ rows pune_df ∧ cell_at 1 r = Text x0.
Proof. eexists _, _. split; [left|reflexivity]. Defined.

(** X4 on the sample: the cuisines are in column 1. *)
Lemma cuisine_options_are_the_pieces_on_sample :
  ∃ options,
    cuisine_options pune_df = Ok ("Any" :: options) ∧
    Criteria.increasing options ∧
    ∀ x, x ∈ options ↔ Criteria.has_cuisine pune_df 1 x.
Proof.
  exact (cuisine_options_are_the_pieces pune_df 1 eq_refl sample_has_cuisines).
Defined.

(** X5 on a table of two rows without cuisines. *)
Lemma cuisine_options_without_cuisines_on_sample :
  cuisine_options no_cuisines_df = Ok ["Any"; ""].
Proof.
  refine (cuisine_options_without_cuisines no_cuisines_df 1 eq_refl _).
  intros r Hr.
  repeat (apply elem_of_cons in Hr as [->|Hr]; [reflexivity|]). inversion Hr.
Defined.

(** X6 on the sample: of the two restaurants of Koregaon Park, one serves
    pizza. *)
Lemma view_is_the_rows_passing_both_criteria_on_sample :
  apply_filters "Koregaon Park" "pizza" pune_state =
    (Ok tt,
     State pune_df (tfidf_matrix pune_state)
           (Frame (columns pune_df)
                  (List.filter
                     (λ r, Criteria.locality_ok "Koregaon Park" (cell_at 2 r)
                           && Criteria.cuisine_ok "pizza" (cell_at 1 r))
                     (rows pune_df)))
           []) ∧
  map label (List.filter
               (λ r, Criteria.locality_ok "Koregaon Park" (cell_at 2 r)
                     && Criteria.cuisine_ok "pizza" (cell_at 1 r))
               (rows pune_df)) = [1].
Proof.
  split; [|reflexivity].
  exact (view_is_the_rows_passing_both_criteria "Koregaon Park" "pizza" pune_state 2 1
           eq_refl eq_refl eq_refl).
Defined.

(** X7 on the sample, for the locality ["Deccan"]. *)
Lemma offered_locality_finds_a_restaurant_on_sample :
  (apply_filters "Deccan" "Any" pune_state).1 = Ok tt ∧
  empty (filtered_df (apply_filters "Deccan" "Any" pune_state).2) = false.
Proof.
  refine (offered_locality_finds_a_restaurant pune_state 2
            ["Any"; "Aundh"; "Baner"; "Deccan"; "Koregaon Park"] "Deccan"
            eq_refl _ eq_refl _).
  - discriminate.
  - apply list_elem_of_In. simpl. tauto.
Defined.

(** X8 on the sample, for the cuisine ["Bar.B.Q"]. *)
Lemma offered_cuisine_finds_a_restaurant_on_sample :
  (apply_filters "Any" "Bar.B.Q" pune_state).1 = Ok tt ∧
  empty (filtered_df (apply_filters "Any" "Bar.B.Q" pune_state).2) = false.
Proof.
  refine (offered_cuisine_finds_a_restaurant pune_state 1
            ["Any"; "Bar-B-Q"; "Bar.B.Q"; "Cafe"; "Chinese"; "Fast Food";
             "Garden Chinese"; "Grill"; "Pizza"; "South Indian"] "Bar.B.Q" _
            eq_refl sample_has_cuisines eq_refl _ eq_refl).
  apply list_elem_of_In. simpl. tauto.
Defined.


(** X10 on the sample run, the user choosing the fifth locality and
    pressing the button. *)
Lemma run_after_startup_on_sample :
  ∃ localities cuisines,
    locality_options (df pune_started) = Ok localities ∧
    cuisine_options (df pune_started) = Ok cuisines ∧
    selectbox localities 4 ∈ localities ∧
    selectbox cuisines 0 ∈ cuisines ∧
    main toy_transform (toy_kneighbors pune_texts) pune_disk (Sidebar 4 0 true) initial =
      find_restaurants toy_transform (toy_kneighbors pune_texts)
        (selectbox localities 4) (selectbox cuisines 0) pune_started.
Proof.
  exact (run_after_startup toy_transform (toy_kneighbors pune_texts) pune_disk
           (Sidebar 4 0 true) pune_started eq_refl).
Defined.

(** X11 on the sample installation without its vectorizer. *)
Lemma missing_model_file_stops_the_run_on_sample :
  main toy_transform (toy_kneighbors pune_texts)
       (Disk (Some (header, pune_records)) false true) (Sidebar 0 0 true) initial =
    (Raise (FileNotFoundError "TF-IDF vectorizer not found"),
     State (frame_of pune_records) [] empty_frame []).
Proof.
  exact (missing_model_file_stops_the_run toy_transform (toy_kneighbors pune_texts)
           (Disk (Some (header, pune_records)) false true) (Sidebar 0 0 true)
           (frame_of pune_records) initial eq_refl eq_refl).
Defined.

Lemma sample_well_formed : Spec.well_formed pune_df.
Proof. repeat constructor. Defined.

(** X12 on the sample, at position 1. *)
Lemma show_card_at_position_on_sample :
  show_card 1 pune_state =
    (Ok tt,
     Spec.log pune_state
       [st_markdown_card
          (Card "Pizza Point" "Lane 5, Koregaon Park" "Pizza, Fast Food" "3.9" "154"
                (maps_prefix +:+ Urllib.quote_plus_str "Lane 5, Koregaon Park"))]).
Proof.
  exact (show_card_at_position pune_state 1 3 0 1 4 5 sample_well_formed
           eq_refl eq_refl eq_refl eq_refl eq_refl).
Defined.

(** X13 on the same card. *)
Lemma card_link_is_escaped_on_sample :
  ∃ c quoted,
    (show_card 1 pune_state).2 = Spec.log pune_state [st_markdown_card c] ∧
    card_maps_url c = maps_prefix +:+ quoted ∧
    Criteria.all_chars Criteria.url_safe quoted = true.
Proof. exact (card_link_is_escaped pune_state 1 _ eq_refl). Defined.

(** X14 on the sample whose row 2 has no address: for the seed row 0 the
    index answers [0; 3; 1; 2; 4; 5], the cards of rows 3 and 1 are
    shown, and row 2 ends the run. *)
Lemma cards_stop_at_the_first_failure_on_sample :
  let run := find_restaurants toy_transform (toy_kneighbors pune_texts)
               "Any" "Any" pune_state_no_address in
  run.1 = Raise TypeError ∧
  ∃ cards, Forall2 (λ k c, Spec.card_of pune_df_no_address k = Ok c) [3; 1] cards ∧
           drop (0 + 4) (out run.2) = map st_markdown_card cards.
Proof.
  refine (cards_stop_at_the_first_failure toy_transform (toy_kneighbors pune_texts)
            "Any" "Any" pune_state_no_address "Spice Garden Chinese Baner"
            [0; 3; 1; 2; 4; 5] [3; 1] [4; 5] 2 TypeError
            eq_refl eq_refl eq_refl eq_refl _ eq_refl).
  repeat (constructor; [eexists; reflexivity|]). constructor.
Defined.

(** X15 on the sample, with an index fitted on three rows only. *)
Lemma index_failure_ends_the_run_on_sample :
  find_restaurants toy_transform (toy_kneighbors (take 3 pune_texts))
    "Any" "Any" pune_state =
    (Raise ValueError,
     Spec.log (State pune_df (tfidf_matrix pune_state) pune_df [])
       [st_success 7; call_transform ["Spice Garden Chinese Baner"];
        call_kneighbors (toy_transform "Spice Garden Chinese Baner") 6]).
Proof.
  exact (index_failure_ends_the_run toy_transform (toy_kneighbors (take 3 pune_texts))
           "Any" "Any" pune_state "Spice Garden Chinese Baner" ValueError
           eq_refl eq_refl eq_refl).
Defined.
